(** * devops-test: the deployment pipeline's task-definition rewrite,
      image tagging, manifest hand-off and environment configuration.

    Shallow embedding of
      - cdk/stacks/pipeline_stack.py       (build, test and deploy projects)
      - cdk/stacks/infrastructure_stack.py (service, security group, scaling)

    Python values read with [json.load] are modelled by the inductive type
    [json]; a Python [dict] with string keys is a [gmap string _]; Python
    exceptions are the constructors of [pyerr], returned through [result]. *)

From Stdlib Require Import ZArith Ascii String List Sorted Lia.
From stdpp Require Import base option gmap strings list fin_maps.

Local Open Scope string_scope.

(** ** Python values and exceptions *)

(** What [json.load] can return.  Numbers keep their lexeme: no operation of
    the repository computes with a number of a task definition. *)
#[local] Unset Elimination Schemes.
Inductive json : Type :=
| JNull : json
| JBool : bool -> json
| JNum : string -> json
| JStr : string -> json
| JArr : list json -> json
| JObj : gmap string json -> json.
#[local] Set Elimination Schemes.

(** The exceptions the embedded scripts can raise. *)
Inductive pyerr : Type :=
| KeyError : string -> pyerr
| IndexError : pyerr
| TypeError : pyerr
| JSONDecodeError : pyerr.

Inductive result (A : Type) : Type :=
| Ok : A -> result A
| Raise : pyerr -> result A.

Arguments Ok {A} _.
Arguments Raise {A} _.

(** Sequencing of statements: the first exception raised ends the script. *)
#[global] Instance result_ret : MRet result := fun A a => Ok a.
#[global] Instance result_bind : MBind result := fun A B k r =>
  match r with
  | Ok a => k a
  | Raise e => Raise e
  end.

(** ** Subscripting, as Python does it on the values of [json.load] *)

(** [v[key]] for a string key. *)
Definition getitem_str (v : json) (key : string) : result json :=
  match v with
  | JObj m =>
      match m !! key with
      | Some x => Ok x
      | None => Raise (KeyError key)
      end
  | _ => Raise TypeError
  end.

(** [v[0]]: a list or a string is indexed (the first character of a string,
    its first byte here), a dict is looked up at the key [0], which no JSON
    object has. *)
Definition getitem_0 (v : json) : result json :=
  match v with
  | JArr (x :: _) => Ok x
  | JArr [] => Raise IndexError
  | JStr (String c _) => Ok (JStr (String c EmptyString))
  | JStr EmptyString => Raise IndexError
  | JObj _ => Raise (KeyError "0")
  | _ => Raise TypeError
  end.

(** [v[key] = x] for a string key: only a dict accepts it. *)
Definition setitem_str (v : json) (key : string) (x : json) : result json :=
  match v with
  | JObj m => Ok (JObj (<[key := x]> m))
  | _ => Raise TypeError
  end.

(** ** The deploy project: the task-definition rewrite
    (pipeline_stack.py, [_create_deploy_project], build phase) *)

(** The keys the script pops, in the order of its list. *)
Definition popped_keys : list string :=
  [ "taskDefinitionArn"; "revision"; "status"; "requiresAttributes";
    "placementConstraints"; "compatibilities"; "registeredAt"; "registeredBy" ].

(** [[td.pop(k, None) for k in ks]] on a dict. *)
Definition pop_all (ks : list string) (m : gmap string json) : gmap string json :=
  foldl (fun acc k => delete k acc) m ks.

(** The one-line Python program of the build phase:
<<
  td = json.load(open('task-def.json'))
  td['containerDefinitions'][0]['image'] = '$IMAGE_URI'
  [td.pop(k, None) for k in [...]]
  json.dump(td, open('new-task-def.json', 'w'), indent=2)
>>
    The assignment mutates the first container entry inside [td]; the value
    returned here is the document handed to [json.dump].  [image_uri] is
    the value of the shell variable, spliced between the quotes of the
    Python literal: an image reference without quote, backslash or
    newline, for which the literal denotes the reference itself (with one
    of those the program is another program, or none). *)
Definition migrate (td : json) (image_uri : string) : result json :=
  cds ← getitem_str td "containerDefinitions";
  c0 ← getitem_0 cds;
  c0' ← setitem_str c0 "image" (JStr image_uri);
  match td, cds with
  | JObj m, JArr (_ :: rest) =>
      Ok (JObj (pop_all popped_keys
                  (<["containerDefinitions" := JArr (c0' :: rest)]> m)))
  | _, _ => Raise TypeError
  end.

(** [td['containerDefinitions'][0]['image']], read back from a document. *)
Definition entry_image (td : json) : result json :=
  cds ← getitem_str td "containerDefinitions";
  c0 ← getitem_0 cds;
  getitem_str c0 "image".

(** ** The scenarios of the specification, as Python values *)

Definition entries_A : list json :=
  [ JObj {[ "name" := JStr "app"; "image" := JStr "old:1" ]} ].

(** [{"containerDefinitions":[{"name":"app","image":"old:1"}],
     "taskDefinitionArn":"arn:1","revision":1}] *)
Definition td_A : json :=
  JObj {[ "containerDefinitions" := JArr entries_A;
          "taskDefinitionArn" := JStr "arn:1";
          "revision" := JNum "1" ]}.

(** [{"containerDefinitions":[{"name":"app","image":"repo:abc1234"}]}] *)
Definition out_A : json :=
  JObj {[ "containerDefinitions" :=
            JArr [ JObj {[ "name" := JStr "app";
                           "image" := JStr "repo:abc1234" ]} ] ]}.

(** A task with a side container that already runs the image being
    deployed (both entries as the infrastructure stack registers them,
    with the [latest] tag). *)
Definition entries_two : list json :=
  [ JObj {[ "name" := JStr "app"; "image" := JStr "repo:latest" ]};
    JObj {[ "name" := JStr "sidecar"; "image" := JStr "repo:latest" ]} ].

Definition td_two : json :=
  JObj {[ "containerDefinitions" := JArr entries_two; "cpu" := JStr "256" ]}.

(** ** The claims about the container name, as the specification words them *)

(** The entry [c] is a container entry named [name]. *)
Definition has_name (name : string) (c : json) : Prop :=
  getitem_str c "name" = Ok (JStr name).

(** The entry [c] has its image field equal to [img]. *)
Definition image_is (img : string) (c : json) : Prop :=
  getitem_str c "image" = Ok (JStr img).

(** [name] names exactly one of the entries. *)
Definition valid_container_name (name : string) (cds : list json) : Prop :=
  exists i c, cds !! i = Some c /\ has_name name c /\
    forall j c', cds !! j = Some c' -> has_name name c' -> j = i.

(** "[migrate] signals a LookupFailure if no container entry's name matches
    [containerName]". *)
Definition lookup_failure_claim (td : json) (img name : string) : Prop :=
  forall cds, getitem_str td "containerDefinitions" = Ok (JArr cds) ->
    (forall c, c ∈ cds -> ~ has_name name c) ->
    exists e, migrate td img = Raise e.

(** "[migrate] returns a document with N entries, exactly one of which has
    its image field equal to the new reference and all others unchanged". *)
Definition exactly_one_claim (td : json) (img name : string) : Prop :=
  forall cds, getitem_str td "containerDefinitions" = Ok (JArr cds) ->
    valid_container_name name cds ->
    exists out cds',
      migrate td img = Ok out /\
      getitem_str out "containerDefinitions" = Ok (JArr cds') /\
      length cds' = length cds /\
      exists i c, cds' !! i = Some c /\ image_is img c /\
        (forall j c', cds' !! j = Some c' -> image_is img c' -> j = i) /\
        (forall j, j <> i -> cds' !! j = cds !! j).

(** ** Environment configuration
    (both stacks, [__init__]: [configs/environments.json]) *)

(** One entry of [environments.json], with the fields the two stacks read
    from it ([config["cpu"]], [config["desired_count"]], ...). *)
Record env_config : Type := {
  cpu : Z;
  memory : Z;
  desired_count : Z;
  container_name : string;
  service_name : string;
  cluster_name : string;
  branch : string;
  app_env : string
}.

(** [config = self.env_configs.get(env_name, self.env_configs["dev"])].
    Python evaluates the default argument before the call, so a mapping
    without a ["dev"] entry raises [KeyError] whatever [env_name] is. *)
Definition resolve_config (env_configs : gmap string env_config)
    (env_name : string) : result env_config :=
  match env_configs !! "dev" with
  | None => Raise (KeyError "dev")
  | Some dev =>
      match env_configs !! env_name with
      | Some config => Ok config
      | None => Ok dev
      end
  end.

(** Two entries in the shape of [environments.json], for the examples. *)
Definition dev_config : env_config :=
  {| cpu := 256; memory := 512; desired_count := 1;
     container_name := "devops-app"; service_name := "devops-app-service-dev";
     cluster_name := "devops-app-cluster-dev"; branch := "develop";
     app_env := "development" |}.

Definition prod_config : env_config :=
  {| cpu := 1024; memory := 2048; desired_count := 3;
     container_name := "devops-app"; service_name := "devops-app-service-prod";
     cluster_name := "devops-app-cluster-prod"; branch := "main";
     app_env := "production" |}.

Definition sample_configs : gmap string env_config :=
  {[ "dev" := dev_config; "prod" := prod_config ]}.

(** ** The security groups (infrastructure_stack.py, [_create_service]) *)

(** The two groups the function creates, held in the variables
    [alb_security_group] and [service_security_group]. *)
Inductive security_group : Type := AlbSecurityGroup | ServiceSecurityGroup.

Inductive peer : Type :=
| any_ipv4
| security_group_peer (g : security_group).

Inductive port : Type := tcp (number : Z).

Record ingress_rule : Type := {
  rule_peer : peer;
  rule_port : port;
  rule_description : string
}.

Definition http_rule : ingress_rule :=
  {| rule_peer := any_ipv4; rule_port := tcp 80;
     rule_description := "Allow HTTP traffic" |}.

Definition https_rule : ingress_rule :=
  {| rule_peer := any_ipv4; rule_port := tcp 443;
     rule_description := "Allow HTTPS traffic" |}.

(** The rules added to the group held in [alb_security_group], in the
    order of the calls to [add_ingress_rule]. *)
Definition alb_ingress_rules (env_name : string) : list ingress_rule :=
  http_rule :: (if String.eqb env_name "prod" then [https_rule] else []).

(** The rule added to [service_security_group]. *)
Definition service_ingress_rules : list ingress_rule :=
  [ {| rule_peer := security_group_peer AlbSecurityGroup;
       rule_port := tcp 3000;
       rule_description := "Allow traffic from ALB" |} ].

(** All the calls to [add_ingress_rule], by the group they are made on. *)
Definition security_group_ingress (g : security_group) (env_name : string)
    : list ingress_rule :=
  match g with
  | AlbSecurityGroup => alb_ingress_rules env_name
  | ServiceSecurityGroup => service_ingress_rules
  end.

(** The two parts of the load-balanced service that carry security
    groups. *)
Inductive sg_target : Type := LoadBalancer | FargateService.

(** The groups the function hands to each part.
    [ApplicationLoadBalancedFargateService(..., security_groups=
    [alb_security_group], ...)]: the [security_groups] of the construct are
    the groups of the Fargate service.  No load balancer and no group for
    one is passed, so the load balancer carries only the group the
    construct creates for it, on which the function calls nothing;
    [service_security_group] is passed nowhere. *)
Definition attached_security_groups (t : sg_target) : list security_group :=
  match t with
  | FargateService => [AlbSecurityGroup]
  | LoadBalancer => []
  end.

(** ** Autoscaling (infrastructure_stack.py, [_create_service]) *)

Record scalable_target : Type := {
  min_capacity : Z;
  max_capacity : Z
}.

(** [service.service.auto_scale_task_count(min_capacity=..., max_capacity=...)] *)
Definition auto_scale_task_count (config : env_config) : scalable_target :=
  {| min_capacity := desired_count config;
     max_capacity := (desired_count config * 3)%Z |}.

(** A task count the scaling policies may set: within the target's bounds. *)
Definition within_bounds (t : scalable_target) (running : Z) : Prop :=
  (min_capacity t <= running <= max_capacity t)%Z.

(** ** The build project: image tag and pushes
    (pipeline_stack.py, [_create_build_project]) *)

(** [cut -c 1-7] on one line. *)
Definition cut_c_1_7 (line : string) : string := substring 0 7 line.

(** [COMMIT_HASH=$(echo $CODEBUILD_RESOLVED_SOURCE_VERSION | cut -c 1-7)],
    for a resolved source version that is one shell word (a commit id) or
    empty.  The splitting and expansion of the unquoted variable and the
    options of [echo] are not modelled: a version with blanks or pattern
    characters, or one that [echo] reads as an option (such as [-n]), is
    outside this definition. *)
Definition commit_hash (resolved_source_version : string) : string :=
  cut_c_1_7 resolved_source_version.

(** [IMAGE_TAG=${COMMIT_HASH:=latest}]: the default is used when the
    variable is unset or empty. *)
Definition image_tag (resolved_source_version : string) : string :=
  match commit_hash resolved_source_version with
  | EmptyString => "latest"
  | h => h
  end.

(** [REPOSITORY_URI=$AWS_ACCOUNT_ID.dkr.ecr.$AWS_DEFAULT_REGION.amazonaws.com/$IMAGE_REPO_NAME] *)
Definition repository_uri (account region repo_name : string) : string :=
  account ++ ".dkr.ecr." ++ region ++ ".amazonaws.com/" ++ repo_name.

(** [$REPOSITORY_URI:<tag>] *)
Definition image_reference (uri tag : string) : string := uri ++ ":" ++ tag.

(** The two [docker push] commands of the post-build phase, in order. *)
Definition pushed_references (uri resolved_source_version : string) : list string :=
  [ image_reference uri (image_tag resolved_source_version);
    image_reference uri "latest" ].

(** The pushed references that are not the mutable [latest] alias. *)
Definition uniquely_tagged (uri : string) (refs : list string) : list string :=
  filter (fun r => r <> image_reference uri "latest") refs.

(** "Every build produces an image tag that is either the 7-character
    short hash or the literal fallback [latest] when no commit hash is
    available". *)
Definition tag_claim (v : string) : Prop :=
  (String.length (image_tag v) = 7 /\ image_tag v = substring 0 7 v) \/
  (v = "" /\ image_tag v = "latest").

(** "Every deployment pushes exactly one uniquely tagged image reference in
    addition to updating the mutable [latest] alias". *)
Definition unique_push_claim (uri v : string) : Prop :=
  length (uniquely_tagged uri (pushed_references uri v)) = 1 /\
  image_reference uri "latest" ∈ pushed_references uri v.

(** ** The deploy project: the commands of the build phase
    (pipeline_stack.py, [_create_deploy_project]) *)

Inductive command : Type :=
| Echo (text : string)
| DescribeServices          (* TASK_DEFINITION=$(aws ecs describe-services ...) *)
| DescribeTaskDefinition    (* aws ecs describe-task-definition ... > task-def.json *)
| RewriteTaskDefinition     (* python3 -c "..." : [migrate] *)
| RegisterTaskDefinition    (* NEW_TASK_DEF_ARN=$(aws ecs register-task-definition ...) *)
| UpdateService             (* aws ecs update-service ... --task-definition $NEW_TASK_DEF_ARN *)
| WaitServicesStable.       (* aws ecs wait services-stable ... *)

(** The ["build"] phase of the deploy project's buildspec, in order. *)
Definition deploy_build_commands (config : env_config) : list command :=
  [ Echo ("Updating ECS service " ++ service_name config ++ " in cluster "
          ++ cluster_name config ++ "...");
    Echo ("Getting current task definition for service "
          ++ service_name config ++ "...");
    DescribeServices;
    Echo "Current task definition: $TASK_DEFINITION";
    Echo "Creating new task definition with updated image...";
    DescribeTaskDefinition;
    RewriteTaskDefinition;
    Echo "Registering new task definition...";
    RegisterTaskDefinition;
    Echo "New task definition ARN: $NEW_TASK_DEF_ARN";
    Echo "Updating ECS service with new task definition...";
    UpdateService;
    Echo ("Waiting for service " ++ service_name config ++ " to become stable...");
    WaitServicesStable ].

(** The commands that call the control plane to change or await the
    service: the three steps of the rollout. *)
Definition is_rollout_step (c : command) : bool :=
  match c with
  | RegisterTaskDefinition | UpdateService | WaitServicesStable => true
  | _ => false
  end.

Definition rollout_steps (cmds : list command) : list command :=
  List.filter is_rollout_step cmds.

(** ** The rollout sequencer *)

(** Modelled from the spec: the states of the Rollout Sequencer (section
    4.2); the repository has no such type, the states are the positions
    reached in the command list. *)
Inductive rollout_state : Type :=
| Idle | Registering | Updating | WaitingForStable | Stable | Failed.

Definition rank (s : rollout_state) : nat :=
  match s with
  | Idle => 0
  | Registering => 1
  | Updating => 2
  | WaitingForStable => 3
  | Stable => 4
  | Failed => 4
  end.

(** The state the sequencer is in while the command [c] runs, having been
    in [st] before. *)
Definition enter (c : command) (st : rollout_state) : rollout_state :=
  match c with
  | RegisterTaskDefinition => Registering
  | UpdateService => Updating
  | WaitServicesStable => WaitingForStable
  | _ => st
  end.

(** What the build service reports of one command. *)
Inductive event : Type :=
| Started (c : command) (during : rollout_state)
| Exited (c : command) (ok : bool).

(** Modelled from the spec: the command runner of the build service, which
    is not part of the repository.  It runs the commands of a phase one
    after the other, each to completion, and stops at the first command
    that fails (sections 5 and 7: single-threaded, synchronous, fail-fast).
    [exit_ok c] tells whether [c] exits with status 0.  The result is the
    log of events and the terminal state. *)
Fixpoint run_phase (exit_ok : command -> bool) (cmds : list command)
    (st : rollout_state) : list event * rollout_state :=
  match cmds with
  | [] => ([], Stable)
  | c :: rest =>
      let st' := enter c st in
      if exit_ok c then
        let '(log, final) := run_phase exit_ok rest st' in
        (Started c st' :: Exited c true :: log, final)
      else
        ([Started c st'; Exited c false], Failed)
  end.

(** One invocation of the deploy build phase, from the initial state. *)
Definition deploy (exit_ok : command -> bool) (config : env_config)
    : list event * rollout_state :=
  run_phase exit_ok (deploy_build_commands config) Idle.

(** The commands started, and the states they ran in, in log order. *)
Fixpoint started (log : list event) : list command :=
  match log with
  | [] => []
  | Started c _ :: log' => c :: started log'
  | Exited _ _ :: log' => started log'
  end.

Fixpoint visited (log : list event) : list rollout_state :=
  match log with
  | [] => []
  | Started _ st :: log' => st :: visited log'
  | Exited _ _ :: log' => visited log'
  end.

(** No overlap: every command started has exited before the next starts. *)
Fixpoint sequential (log : list event) : Prop :=
  match log with
  | [] => True
  | Started c _ :: Exited c' _ :: log' => c = c' /\ sequential log'
  | _ => False
  end.

(** The states the commands of a list run in, when none fails. *)
Fixpoint states_during (cmds : list command) (st : rollout_state)
    : list rollout_state :=
  match cmds with
  | [] => []
  | c :: rest => enter c st :: states_during rest (enter c st)
  end.

(** ** The image definitions manifest
    (pipeline_stack.py, [_create_build_project], post-build phase, and the
    pre-build phases of the test and deploy projects) *)

(** Text is a string of bytes; a Python [str] is held as its UTF-8 bytes. *)

Definition dquote : ascii := "034"%char.
Definition backslash : ascii := "092"%char.
Definition newline : ascii := "010"%char.

Definition quoted (s : string) : string := String dquote (s ++ String dquote "").

(** The format the f-string of line 105 hands to [printf]:
    [[{"name":"<container_name>","imageUri":"%s"}]]. *)
Definition manifest_format (container_name : string) : string :=
  "[{" ++ quoted "name" ++ ":" ++ quoted container_name ++ ","
       ++ quoted "imageUri" ++ ":" ++ quoted "%s" ++ "}]".

(** [printf format args], for the conversions the repository uses: [%s]
    takes the next argument (the empty string when none is left) and [%%]
    prints a percent sign.  [None] stands for a format with another
    conversion or with a backslash escape, which this model does not
    cover. *)
Fixpoint printf (format : string) (args : list string) : option string :=
  match format with
  | EmptyString => Some EmptyString
  | String c rest =>
      if Ascii.eqb c "%" then
        match rest with
        | String d rest' =>
            if Ascii.eqb d "s" then
              String.append (hd EmptyString args) <$> printf rest' (tl args)
            else if Ascii.eqb d "%" then
              String "%" <$> printf rest' args
            else None
        | EmptyString => None
        end
      else if Ascii.eqb c backslash then None
      else String c <$> printf rest args
  end.

(** [printf '<format>' $REPOSITORY_URI:$IMAGE_TAG > imagedefinitions.json]:
    the file's content, the image reference being one shell word. *)
Definition write_manifest (container_name image_uri : string) : option string :=
  printf (manifest_format container_name) [image_uri].

(** *** [json.load]: the decoder of Python's [json] module *)

Definition is_ws (c : ascii) : bool :=
  Ascii.eqb c " " || Ascii.eqb c "009" || Ascii.eqb c newline || Ascii.eqb c "013".

Fixpoint skip_ws (s : string) : string :=
  match s with
  | String c rest => if is_ws c then skip_ws rest else s
  | EmptyString => EmptyString
  end.

Definition hex_digit (c : ascii) : option N :=
  let n := N_of_ascii c in
  if (48 <=? n)%N && (n <=? 57)%N then Some (n - 48)%N
  else if (65 <=? n)%N && (n <=? 70)%N then Some (n - 55)%N
  else if (97 <=? n)%N && (n <=? 102)%N then Some (n - 87)%N
  else None.

(** The four hexadecimal digits of a [\uXXXX] escape. *)
Definition hex4 (a b c d : ascii) : option N :=
  x ← hex_digit a; y ← hex_digit b; z ← hex_digit c; w ← hex_digit d;
  Some (((x * 16 + y) * 16 + z) * 16 + w)%N.

(** [chr(uni)], as UTF-8 bytes (a lone surrogate is written like any other
    three-byte code point). *)
Definition utf8_chr (uni : N) : string :=
  let byte (n : N) := ascii_of_N n in
  let cont (n : N) := byte (128 + N.land n 63)%N in
  if (uni <? 128)%N then String (byte uni) ""
  else if (uni <? 2048)%N then
    String (byte (192 + N.shiftr uni 6)%N) (String (cont uni) "")
  else if (uni <? 65536)%N then
    String (byte (224 + N.shiftr uni 12)%N)
      (String (cont (N.shiftr uni 6)) (String (cont uni) ""))
  else
    String (byte (240 + N.shiftr uni 18)%N)
      (String (cont (N.shiftr uni 12))
         (String (cont (N.shiftr uni 6)) (String (cont uni) ""))).

Definition is_high_surrogate (uni : N) : bool :=
  (55296 <=? uni)%N && (uni <=? 56319)%N.

Definition is_low_surrogate (uni : N) : bool :=
  (56320 <=? uni)%N && (uni <=? 57343)%N.

Definition join_surrogates (hi lo : N) : N :=
  (65536 + N.lor (N.shiftl (hi - 55296) 10) (lo - 56320))%N.

(** The character a one-letter escape stands for. *)
Definition simple_escape (e : ascii) : option ascii :=
  if Ascii.eqb e dquote then Some dquote
  else if Ascii.eqb e backslash then Some backslash
  else if Ascii.eqb e "/" then Some "/"%char
  else if Ascii.eqb e "b" then Some "008"%char
  else if Ascii.eqb e "f" then Some "012"%char
  else if Ascii.eqb e "n" then Some newline
  else if Ascii.eqb e "r" then Some "013"%char
  else if Ascii.eqb e "t" then Some "009"%char
  else None.

Definition prepend (p : string) (r : option (string * string))
    : option (string * string) :=
  '(content, rest) ← r; Some (p ++ content, rest).

(** [scanstring], strict: the text after an opening quote, up to the
    closing quote; returns the string and the text after it. *)
Fixpoint scanstring (s : string) : option (string * string) :=
  match s with
  | EmptyString => None
  | String c r =>
      if Ascii.eqb c dquote then Some (EmptyString, r)
      else if Ascii.eqb c backslash then
        match r with
        | EmptyString => None
        | String e r1 =>
            if Ascii.eqb e "u" then
              match r1 with
              | String h1 (String h2 (String h3 (String h4 r2))) =>
                  match hex4 h1 h2 h3 h4 with
                  | None => None
                  | Some uni =>
                      let alone := prepend (utf8_chr uni) (scanstring r2) in
                      if is_high_surrogate uni then
                        match r2 with
                        | String b (String u (String k1 (String k2
                            (String k3 (String k4 r3))))) =>
                            if Ascii.eqb b backslash && Ascii.eqb u "u" then
                              match hex4 k1 k2 k3 k4 with
                              | None => None
                              | Some uni2 =>
                                  if is_low_surrogate uni2 then
                                    prepend (utf8_chr (join_surrogates uni uni2))
                                            (scanstring r3)
                                  else alone
                              end
                            else alone
                        | _ => alone
                        end
                      else alone
                  end
              | _ => None
              end
            else
              match simple_escape e with
              | Some ch => prepend (String ch "") (scanstring r1)
              | None => None
              end
        end
      else if (N_of_ascii c <? 32)%N then None
      else prepend (String c "") (scanstring r)
  end.

Definition is_digit (c : ascii) : bool :=
  (48 <=? N_of_ascii c)%N && (N_of_ascii c <=? 57)%N.

(** The longest run of digits at the head of [s], and the rest. *)
Fixpoint span_digits (s : string) : string * string :=
  match s with
  | String c rest =>
      if is_digit c then
        let '(ds, rest') := span_digits rest in (String c ds, rest')
      else (EmptyString, s)
  | EmptyString => (EmptyString, EmptyString)
  end.

(** The integer part of a number: an optional minus sign, then either a
    single zero or a digit from 1 to 9 followed by digits. *)
Definition match_integer (s : string) : option (string * string) :=
  let '(sign, s1) :=
    match s with
    | String c rest => if Ascii.eqb c "-" then ("-", rest) else ("", s)
    | EmptyString => ("", s)
    end in
  match s1 with
  | String d rest =>
      if Ascii.eqb d "0" then Some (sign ++ "0", rest)
      else if is_digit d then
        let '(ds, rest') := span_digits rest in
        Some (sign ++ String d ds, rest')
      else None
  | EmptyString => None
  end.

(** The optional fraction: a dot followed by at least one digit. *)
Definition match_fraction (s : string) : string * string :=
  match s with
  | String c rest =>
      if Ascii.eqb c "." then
        match span_digits rest with
        | (EmptyString, _) => (EmptyString, s)
        | (ds, rest') => (String c ds, rest')
        end
      else (EmptyString, s)
  | EmptyString => (EmptyString, s)
  end.

(** The optional exponent: [e] or [E], an optional sign, at least one
    digit. *)
Definition match_exponent (s : string) : string * string :=
  match s with
  | String c rest =>
      if Ascii.eqb c "e" || Ascii.eqb c "E" then
        let '(sign, rest1) :=
          match rest with
          | String g rest2 =>
              if Ascii.eqb g "-" || Ascii.eqb g "+"
              then (String g "", rest2) else ("", rest)
          | EmptyString => ("", rest)
          end in
        match span_digits rest1 with
        | (EmptyString, _) => (EmptyString, s)
        | (ds, rest') => (String c (sign ++ ds), rest')
        end
      else (EmptyString, s)
  | EmptyString => (EmptyString, s)
  end.

(** [NUMBER_RE.match]: the lexeme of the number at the head of [s]. *)
Definition match_number (s : string) : option (string * string) :=
  '(int, r) ← match_integer s;
  let '(frac, r1) := match_fraction r in
  let '(exp, r2) := match_exponent r1 in
  Some (int ++ frac ++ exp, r2).

(** [s] without the prefix [p], when it starts with [p]. *)
Fixpoint strip_prefix (p s : string) : option string :=
  match p, s with
  | EmptyString, _ => Some s
  | String a p', String b s' =>
      if Ascii.eqb a b then strip_prefix p' s' else None
  | String _ _, EmptyString => None
  end.

(** The literals and numbers of [scan_once], tried in its order. *)
Definition scan_atom (s : string) : option (json * string) :=
  match strip_prefix "null" s with
  | Some r => Some (JNull, r)
  | None =>
  match strip_prefix "true" s with
  | Some r => Some (JBool true, r)
  | None =>
  match strip_prefix "false" s with
  | Some r => Some (JBool false, r)
  | None =>
  match match_number s with
  | Some (lexeme, r) => Some (JNum lexeme, r)
  | None =>
  match strip_prefix "NaN" s with
  | Some r => Some (JNum "NaN", r)
  | None =>
  match strip_prefix "Infinity" s with
  | Some r => Some (JNum "Infinity", r)
  | None =>
  match strip_prefix "-Infinity" s with
  | Some r => Some (JNum "-Infinity", r)
  | None => None
  end end end end end end end.

(** [dict(pairs)]: a later pair replaces an earlier one with the same key. *)
Definition dict_of_pairs (pairs : list (string * json)) : gmap string json :=
  foldl (fun m p => <[p.1 := p.2]> m) ∅ pairs.

(** [scan_once], with [JSONArray] and [JSONObject]: the value at the head
    of [s] and the text after it.  [array_items] starts at the first value
    of a non-empty array, [object_pairs] after the opening quote of a
    key.  The recursion is on [fuel], one unit per call. *)
Fixpoint scan_once (fuel : nat) (s : string) : option (json * string) :=
  match fuel with
  | O => None
  | S fuel' =>
      match s with
      | EmptyString => None
      | String c r =>
          if Ascii.eqb c dquote then
            '(str, r') ← scanstring r; Some (JStr str, r')
          else if Ascii.eqb c "{" then
            match skip_ws r with
            | String d r' =>
                if Ascii.eqb d "}" then Some (JObj ∅, r')
                else if Ascii.eqb d dquote then
                  '(pairs, r'') ← object_pairs fuel' r';
                  Some (JObj (dict_of_pairs pairs), r'')
                else None
            | EmptyString => None
            end
          else if Ascii.eqb c "[" then
            match skip_ws r with
            | String d r' =>
                if Ascii.eqb d "]" then Some (JArr [], r')
                else
                  '(items, r'') ← array_items fuel' (String d r');
                  Some (JArr items, r'')
            | EmptyString => None
            end
          else scan_atom s
      end
  end
with array_items (fuel : nat) (s : string) : option (list json * string) :=
  match fuel with
  | O => None
  | S fuel' =>
      '(v, r) ← scan_once fuel' s;
      match skip_ws r with
      | String d r' =>
          if Ascii.eqb d "]" then Some ([v], r')
          else if Ascii.eqb d "," then
            '(vs, r'') ← array_items fuel' (skip_ws r');
            Some (v :: vs, r'')
          else None
      | EmptyString => None
      end
  end
with object_pairs (fuel : nat) (s : string)
    : option (list (string * json) * string) :=
  match fuel with
  | O => None
  | S fuel' =>
      '(key, r) ← scanstring s;
      match skip_ws r with
      | String d r' =>
          if Ascii.eqb d ":" then
            '(v, r1) ← scan_once fuel' (skip_ws r');
            match skip_ws r1 with
            | String e r2 =>
                if Ascii.eqb e "}" then Some ([(key, v)], r2)
                else if Ascii.eqb e "," then
                  match skip_ws r2 with
                  | String q r3 =>
                      if Ascii.eqb q dquote then
                        '(ps, r4) ← object_pairs fuel' r3;
                        Some ((key, v) :: ps, r4)
                      else None
                  | EmptyString => None
                  end
                else None
            | EmptyString => None
            end
          else None
      | EmptyString => None
      end
  end.

(** [json.loads(text)]: leading blanks, one value, trailing blanks.  Every
    call of the three functions above follows at most two others on the
    same character, which the fuel allows for. *)
Definition json_loads (text : string) : result json :=
  match scan_once (2 * String.length text + 2) (skip_ws text) with
  | Some (v, rest) =>
      match skip_ws rest with
      | EmptyString => Ok v
      | String _ _ => Raise JSONDecodeError
      end
  | None => Raise JSONDecodeError
  end.

(** [json.load(sys.stdin)[0]['imageUri']], the expression of the test and
    deploy projects, on the content of [imagedefinitions.json]. *)
Definition manifest_image_uri (text : string) : result json :=
  doc ← json_loads text;
  entry ← getitem_0 doc;
  getitem_str entry "imageUri".

(** [json.load(sys.stdin)[0]['name']]: no stage evaluates it; it is the
    container name a reader of the manifest finds. *)
Definition manifest_name (text : string) : result json :=
  doc ← json_loads text;
  entry ← getitem_0 doc;
  getitem_str entry "name".

(** [print(s)] for a string. *)
Definition py_print (s : string) : string := s ++ String newline "".

(** [$(command)]: the output of the command without its trailing newlines. *)
Fixpoint command_substitution (stdout : string) : string :=
  match stdout with
  | EmptyString => EmptyString
  | String c rest =>
      match command_substitution rest with
      | EmptyString => if Ascii.eqb c newline then EmptyString else String c ""
      | kept => String c kept
      end
  end.

(** The characters of container names and image references: letters,
    digits and [- _ . : /]. *)
Definition plain_char (c : ascii) : bool :=
  let n := N_of_ascii c in
  ((48 <=? n) && (n <=? 58) || (65 <=? n) && (n <=? 90) ||
   (97 <=? n) && (n <=? 122) || (45 <=? n) && (n <=? 47) || (n =? 95))%N.

Fixpoint plain (s : string) : bool :=
  match s with
  | EmptyString => true
  | String c rest => plain_char c && plain rest
  end.

(** The manifest of a container name and an image reference:
    [[{"name":"<name>","imageUri":"<uri>"}]]. *)
Definition manifest_text (name uri : string) : string :=
  "[{" ++ quoted "name" ++ ":" ++ quoted name ++ ","
       ++ quoted "imageUri" ++ ":" ++ quoted uri ++ "}]".

(** The Python value of that manifest. *)
Definition manifest_value (name uri : string) : json :=
  JArr [ JObj {[ "name" := JStr name; "imageUri" := JStr uri ]} ].

(** ** The application entry point (app.py) *)

(** [value or default] for a context value that is absent ([None]) or a
    string, as [cdk -c env=...] gives it: an absent or empty value yields
    the default. *)
Definition py_or (value : option string) (default : string) : string :=
  match value with
  | Some (String c s) => String c s
  | Some EmptyString | None => default
  end.

(** [env_name = app.node.try_get_context("env") or "dev"] *)
Definition app_env_name (context_env : option string) : string :=
  py_or context_env "dev".

(** [region = app.node.try_get_context("region") or "us-east-1"] *)
Definition app_region (context_region : option string) : string :=
  py_or context_region "us-east-1".

(** The two stacks the application constructs: identifier, environment
    name and region of each, the infrastructure stack first. *)
Record stack_props : Type := {
  stack_id : string;
  stack_env_name : string;
  stack_region : string
}.

Definition app_stacks (context_env context_region : option string)
    : stack_props * stack_props :=
  let env_name := app_env_name context_env in
  let region := app_region context_region in
  ({| stack_id := "DevOpsApp-Infrastructure-" ++ env_name;
      stack_env_name := env_name; stack_region := region |},
   {| stack_id := "DevOpsApp-Pipeline-" ++ env_name;
      stack_env_name := env_name; stack_region := region |}).

(** ** The infrastructure stack (infrastructure_stack.py) *)

(** [_create_vpc], [_create_cluster], [_create_log_group]: the names. *)
Definition vpc_name (env_name : string) : string :=
  "devops-app-vpc-" ++ env_name.

Definition ecs_cluster_name (env_name : string) : string :=
  "devops-app-cluster-" ++ env_name.

Definition log_group_name (env_name : string) : string :=
  "/ecs/devops-app-" ++ env_name.

Inductive retention_days : Type := ONE_WEEK | ONE_MONTH.

(** [logs.RetentionDays.ONE_WEEK if self.env_name == "dev"
     else logs.RetentionDays.ONE_MONTH] *)
Definition log_retention (env_name : string) : retention_days :=
  if String.eqb env_name "dev" then ONE_WEEK else ONE_MONTH.

(** [_create_service]: the names, and the container of the task. *)
Definition task_family (env_name : string) : string :=
  "devops-app-" ++ env_name.

(** The repository the service's image is taken from:
    [ecr.Repository.from_repository_name(..., f"devops-app-{env_name}")]. *)
Definition ecr_repository_name (env_name : string) : string :=
  "devops-app-" ++ env_name.

Definition ecs_service_name (env_name : string) : string :=
  "devops-app-service-" ++ env_name.

(** [task_definition.add_container(...)] with its port mapping. *)
Record container_definition : Type := {
  cd_name : string;
  cd_repository : string;
  cd_tag : string;
  cd_environment : list (string * string);
  cd_memory_limit_mib : Z;
  cd_container_port : Z
}.

Definition service_container (config : env_config) (env_name region : string)
    : container_definition :=
  {| cd_name := container_name config;
     cd_repository := ecr_repository_name env_name;
     cd_tag := "latest";
     cd_environment :=
       [ ("APP_ENV", app_env config);
         ("APP_NAME", "devops-app-" ++ env_name);
         ("APP_REGION", region);
         ("APP_PORT", "3000") ];
     cd_memory_limit_mib := memory config;
     cd_container_port := 3000 |}.

(** What [InfrastructureStack.__init__] declares, as far as the names, the
    sizing and the rules modelled above go.  The entry resolved is an
    [env_config], which has every key the stack reads; an entry lacking
    one, and the checks the constructs make on the values, are not
    modelled: the only failure here is that of [resolve_config]. *)
Record infrastructure : Type := {
  i_vpc_name : string;
  i_cluster_name : string;
  i_log_group_name : string;
  i_log_retention : retention_days;
  i_task_family : string;
  i_task_cpu : Z;
  i_task_memory : Z;
  i_container : container_definition;
  i_alb_ingress : list ingress_rule;
  i_service_name : string;
  i_desired_count : Z;
  i_scaling : scalable_target
}.

Definition infrastructure_stack (env_configs : gmap string env_config)
    (env_name region : string) : result infrastructure :=
  config ← resolve_config env_configs env_name;
  Ok {| i_vpc_name := vpc_name env_name;
        i_cluster_name := ecs_cluster_name env_name;
        i_log_group_name := log_group_name env_name;
        i_log_retention := log_retention env_name;
        i_task_family := task_family env_name;
        i_task_cpu := cpu config;
        i_task_memory := memory config;
        i_container := service_container config env_name region;
        i_alb_ingress := alb_ingress_rules env_name;
        i_service_name := ecs_service_name env_name;
        i_desired_count := desired_count config;
        i_scaling := auto_scale_task_count config |}.

(** ** The pipeline stack (pipeline_stack.py) *)

(** [__init__]: the artifact bucket and the project and pipeline names. *)
Definition artifacts_bucket_name (env_name account : string) : string :=
  "devops-app-artifacts-" ++ env_name ++ "-" ++ account.

Definition build_project_name (env_name : string) : string :=
  "devops-app-build-" ++ env_name.

Definition test_project_name (env_name : string) : string :=
  "devops-app-test-" ++ env_name.

Definition deploy_project_name (env_name : string) : string :=
  "devops-app-deploy-" ++ env_name.

Definition pipeline_name (env_name : string) : string :=
  "devops-app-" ++ env_name.

(** The repository the stack creates:
    [repository_name=f"devops-app-{env_name}"]. *)
Definition pipeline_repository_name (env_name : string) : string :=
  "devops-app-" ++ env_name.

(** [_create_build_project]: the shell variables of the build, from the
    project's environment variables ([AWS_ACCOUNT_ID], [AWS_DEFAULT_REGION],
    [IMAGE_REPO_NAME], the latter the name of the stack's repository) and
    the resolved source version. *)
Definition build_repository_uri (account region env_name : string) : string :=
  repository_uri account region (pipeline_repository_name env_name).

(** [$REPOSITORY_URI:$IMAGE_TAG] *)
Definition build_image_uri (account region env_name version : string) : string :=
  image_reference (build_repository_uri account region env_name)
                  (image_tag version).

(** The names given to the image by [docker build -t] and the two
    [docker tag] commands of the build phase, in order. *)
Definition tagged_references (account region env_name version : string)
    : list string :=
  [ image_reference (pipeline_repository_name env_name) (image_tag version);
    build_image_uri account region env_name version;
    image_reference (build_repository_uri account region env_name) "latest" ].

(** The manifest the post-build phase writes. *)
Definition build_manifest (config : env_config)
    (account region env_name version : string) : option string :=
  write_manifest (container_name config)
                 (build_image_uri account region env_name version).

(** [_create_deploy_project]: the [aws] commands of the build phase that
    name the cluster and the service. *)
Definition describe_services_command (config : env_config) : string :=
  "TASK_DEFINITION=$(aws ecs describe-services --cluster "
    ++ cluster_name config ++ " --services " ++ service_name config
    ++ " --query 'services[0].taskDefinition' --output text)".

Definition update_service_command (config : env_config) : string :=
  "aws ecs update-service --cluster " ++ cluster_name config
    ++ " --service " ++ service_name config
    ++ " --task-definition $NEW_TASK_DEF_ARN".

Definition wait_command (config : env_config) : string :=
  "aws ecs wait services-stable --cluster " ++ cluster_name config
    ++ " --services " ++ service_name config
    ++ " --region $AWS_DEFAULT_REGION".

(** [_create_pipeline]: stages, actions and the artifacts they pass. *)
Inductive artifact : Type := SourceOutput | BuildOutput | TestOutput.

Record action : Type := {
  action_name : string;
  action_inputs : list artifact;
  action_outputs : list artifact
}.

Record stage : Type := {
  stage_name : string;
  stage_actions : list action
}.

Definition pipeline_stages : list stage :=
  [ {| stage_name := "Source";
       stage_actions :=
         [ {| action_name := "GitHub_Source";
              action_inputs := []; action_outputs := [SourceOutput] |} ] |};
    {| stage_name := "Build";
       stage_actions :=
         [ {| action_name := "Build_Docker_Image";
              action_inputs := [SourceOutput];
              action_outputs := [BuildOutput] |} ] |};
    {| stage_name := "Test";
       stage_actions :=
         [ {| action_name := "Run_Tests";
              action_inputs := [BuildOutput];
              action_outputs := [TestOutput] |} ] |};
    {| stage_name := "Deploy";
       stage_actions :=
         [ {| action_name := "Deploy_to_ECS";
              action_inputs := [BuildOutput]; action_outputs := [] |} ] |} ].

(** What [PipelineStack.__init__] declares, as far as modelled above.  As
    for the infrastructure stack, the only failure here is that of
    [resolve_config]: an entry lacking a key the stack reads, and the
    checks the constructs make on names, are not modelled. *)
Record pipeline : Type := {
  p_bucket_name : string;
  p_repository_name : string;
  p_build_project : string;
  p_test_project : string;
  p_deploy_project : string;
  p_manifest_format : string;
  p_deploy_commands : list string;
  p_pipeline_name : string;
  p_source_branch : string;
  p_stages : list stage
}.

Definition pipeline_stack (env_configs : gmap string env_config)
    (env_name account : string) : result pipeline :=
  config ← resolve_config env_configs env_name;
  Ok {| p_bucket_name := artifacts_bucket_name env_name account;
        p_repository_name := pipeline_repository_name env_name;
        p_build_project := build_project_name env_name;
        p_test_project := test_project_name env_name;
        p_deploy_project := deploy_project_name env_name;
        p_manifest_format := manifest_format (container_name config);
        p_deploy_commands :=
          [ describe_services_command config;
            update_service_command config;
            wait_command config ];
        p_pipeline_name := pipeline_name env_name;
        p_source_branch := branch config;
        p_stages := pipeline_stages |}.

(** The artifacts produced by the stages before position [n]. *)
Definition produced_before (stages : list stage) (n : nat) : list artifact :=
  flat_map (fun s => flat_map action_outputs (stage_actions s))
           (firstn n stages).

(** The artifacts consumed by any stage. *)
Definition consumed (stages : list stage) : list artifact :=
  flat_map (fun s => flat_map action_inputs (stage_actions s)) stages.

(** The resolved source versions for which [commit_hash] is what
    [echo $CODEBUILD_RESOLVED_SOURCE_VERSION | cut -c 1-7] prints: the
    empty version, and one word of letters, digits and [- _ . : /] that
    does not start with a dash.  The shell neither splits nor expands such
    a word and [echo] does not read it as an option; commit ids are such
    words. *)
Definition version_word (v : string) : bool :=
  plain v &&
  match v with
  | String c _ => negb (Ascii.eqb c "-")
  | EmptyString => true
  end.

(** ** Facts about [pop_all] *)

Section PopAll.
Implicit Types (m : gmap string json) (ks : list string) (k : string).

Lemma pop_all_cons k ks m : pop_all (k :: ks) m = pop_all ks (delete k m).
Proof. reflexivity. Qed.

Lemma lookup_pop_all_in ks : forall m k, k ∈ ks -> pop_all ks m !! k = None.
Proof.
  induction ks as [|k0 ks IH]; intros m k Hin.
  - by apply not_elem_of_nil in Hin.
  - rewrite pop_all_cons. destruct (decide (k ∈ ks)) as [Hk|Hk].
    + by apply IH.
    + apply elem_of_cons in Hin as [->|Hin]; [|done].
      clear IH. revert m. induction ks as [|k1 ks IH]; intros m.
      * apply lookup_delete_eq.
      * rewrite pop_all_cons. apply not_elem_of_cons in Hk as [Hne Hk].
        rewrite delete_delete. by apply IH.
Qed.

Lemma lookup_pop_all_notin ks : forall m k, k ∉ ks -> pop_all ks m !! k = m !! k.
Proof.
  induction ks as [|k0 ks IH]; intros m k Hin; [done|].
  apply not_elem_of_cons in Hin as [Hne Hin].
  rewrite pop_all_cons, IH by done. by apply lookup_delete_ne.
Qed.

Lemma lookup_pop_all ks m k :
  pop_all ks m !! k = if decide (k ∈ ks) then None else m !! k.
Proof.
  case_decide; [by apply lookup_pop_all_in | by apply lookup_pop_all_notin].
Qed.
End PopAll.

(** ** Theorems about [migrate] *)

Section Migrate.
Implicit Types (m c : gmap string json) (rest : list json) (img : string).

Lemma migrate_ok m c rest img :
  m !! "containerDefinitions" = Some (JArr (JObj c :: rest)) ->
  migrate (JObj m) img =
    Ok (JObj (pop_all popped_keys
                (<["containerDefinitions" :=
                     JArr (JObj (<["image" := JStr img]> c) :: rest)]> m))).
Proof. intros H. unfold migrate. simpl. rewrite H. reflexivity. Qed.

(** Whenever [migrate] returns, its input had a dict as first entry of
    its container list, and the result is the rewritten document. *)
Lemma migrate_ok_inv td img out :
  migrate td img = Ok out ->
  exists m c rest, td = JObj m /\
    m !! "containerDefinitions" = Some (JArr (JObj c :: rest)) /\
    out = JObj (pop_all popped_keys
                  (<["containerDefinitions" :=
                       JArr (JObj (<["image" := JStr img]> c) :: rest)]> m)).
Proof.
  intros H.
  assert (exists m c rest, td = JObj m /\
            m !! "containerDefinitions" = Some (JArr (JObj c :: rest)))
    as (m & c & rest & -> & Hcd).
  { revert H. unfold migrate.
    destruct td as [| | | | |m]; simpl; try discriminate.
    destruct (m !! "containerDefinitions") as [cds|] eqn:E; simpl; [|discriminate].
    destruct cds as [| | |s|l|o]; simpl; try discriminate.
    - destruct s; discriminate.
    - destruct l as [|x l]; simpl; [discriminate|].
      destruct x; simpl; try discriminate. eauto 6. }
  exists m, c, rest. repeat split; [done|].
  rewrite (migrate_ok _ _ _ _ Hcd) in H. congruence.
Qed.

Lemma cd_not_popped : "containerDefinitions" ∉ popped_keys.
Proof.
  unfold popped_keys. rewrite !not_elem_of_cons.
  repeat split; try discriminate. apply not_elem_of_nil.
Qed.

Lemma lookup_migrated_cd m v :
  pop_all popped_keys (<["containerDefinitions" := v]> m)
    !! "containerDefinitions" = Some v.
Proof.
  rewrite lookup_pop_all_notin by apply cd_not_popped.
  apply lookup_insert_eq.
Qed.
End Migrate.

Section MigrateClaims.
Implicit Types (m c : gmap string json) (rest : list json) (img : string).

(** Scenario A of the specification. *)
Example migrate_scenario_A : migrate td_A "repo:abc1234" = Ok out_A.
Proof. reflexivity. Qed.

(** C1, as the specification states it, fails: on the document of
    Scenario A no entry is named "missing", and [migrate] still returns a
    document instead of signalling a failure. *)
Lemma migrate_no_lookup_failure :
  ~ lookup_failure_claim td_A "repo:abc1234" "missing".
Proof.
  intros H. destruct (H entries_A) as [e He].
  - reflexivity.
  - intros c Hc. apply list_elem_of_singleton in Hc as ->.
    unfold has_name. vm_compute. discriminate.
  - vm_compute in He. discriminate.
Qed.

(** C1 (amended): [migrate] never consults a container name.  It writes
    the new image reference into the first entry of the container list,
    whatever that entry is called; it raises [IndexError] when the list is
    empty, [KeyError] when the document has no container list, and an
    exception in every other case. *)
Theorem migrate_first_entry (td : json) (img : string) :
  match td with
  | JObj m =>
      match m !! "containerDefinitions" with
      | None => migrate td img = Raise (KeyError "containerDefinitions")
      | Some (JArr []) => migrate td img = Raise IndexError
      | Some (JArr (JObj c :: rest)) =>
          exists out,
            migrate td img = Ok (JObj out) /\
            out !! "containerDefinitions" =
              Some (JArr (JObj (<["image" := JStr img]> c) :: rest))
      | Some _ => exists e, migrate td img = Raise e
      end
  | _ => migrate td img = Raise TypeError
  end.
Proof.
  destruct td as [| | | | |m]; try reflexivity.
  destruct (m !! "containerDefinitions") as [cds|] eqn:E.
  - destruct cds as [| | |s|l|o];
      try (exists TypeError; unfold migrate; simpl; rewrite E; reflexivity).
    + destruct s; eexists; unfold migrate; simpl; rewrite E; reflexivity.
    + destruct l as [|x l]; [unfold migrate; simpl; rewrite E; reflexivity|].
      destruct x as [| | | | |c];
        try (exists TypeError; unfold migrate; simpl; rewrite E; reflexivity).
      eexists. split; [by apply migrate_ok|]. apply lookup_migrated_cd.
    + eexists; unfold migrate; simpl; rewrite E; reflexivity.
  - unfold migrate; simpl; rewrite E; reflexivity.
Qed.

(** C2: a document returned by [migrate] is an object that has none of
    the provider-assigned metadata keys. *)
Theorem migrate_strips_metadata (td : json) (img : string) (out : json) :
  migrate td img = Ok out ->
  forall k,
    k ∈ [ "taskDefinitionArn"; "revision"; "status"; "requiresAttributes";
          "placementConstraints"; "compatibilities"; "registeredAt";
          "registeredBy" ] ->
    getitem_str out k = Raise (KeyError k).
Proof.
  intros H k Hk.
  destruct (migrate_ok_inv _ _ _ H) as (m & c & rest & -> & Hcd & ->).
  cbn [getitem_str]. rewrite lookup_pop_all_in; [reflexivity | exact Hk].
Qed.

Lemma migrate_strips_metadata_witness :
  migrate td_A "repo:abc1234" = Ok out_A /\
  getitem_str out_A "taskDefinitionArn" = Raise (KeyError "taskDefinitionArn") /\
  getitem_str out_A "revision" = Raise (KeyError "revision").
Proof.
  split; [reflexivity|].
  split; apply (migrate_strips_metadata td_A "repo:abc1234" out_A);
    first [reflexivity | repeat constructor].
Defined.

(** C3, as the specification states it, fails: when another entry already
    runs the image being deployed, two entries of the returned document
    have their image field equal to the new reference. *)
Lemma migrate_not_exactly_one :
  ~ exactly_one_claim td_two "repo:latest" "app".
Proof.
  intros H.
  destruct (H entries_two)
    as (out & cds' & Hm & Hcd & _ & i & c & _ & _ & Huniq & _).
  - reflexivity.
  - exists 0, (JObj {[ "name" := JStr "app"; "image" := JStr "repo:latest" ]}).
    split; [reflexivity|]. split; [reflexivity|].
    intros [|[|j]] c' Hj Hn; [reflexivity| |discriminate].
    injection Hj as <-. vm_compute in Hn. discriminate.
  - vm_compute in Hm. injection Hm as <-.
    vm_compute in Hcd. injection Hcd as <-.
    pose proof (Huniq 0 _ eq_refl eq_refl) as H0.
    pose proof (Huniq 1 _ eq_refl eq_refl) as H1.
    congruence.
Qed.

(** C3 (amended): on a document whose container list starts with an
    object, [migrate] returns a document with as many container entries;
    the first entry has the new image reference and keeps all its other
    fields, every later entry is unchanged, every top-level field other
    than the popped keys and the container list is unchanged, and the
    popped keys are absent.  The first entry is the only one with the new
    reference provided no later entry had it already. *)
Theorem migrate_frame m c rest img :
  m !! "containerDefinitions" = Some (JArr (JObj c :: rest)) ->
  exists out cds' c',
    migrate (JObj m) img = Ok (JObj out) /\
    out !! "containerDefinitions" = Some (JArr cds') /\
    length cds' = length (JObj c :: rest) /\
    cds' !! 0 = Some (JObj c') /\
    c' !! "image" = Some (JStr img) /\
    (forall k, k <> "image" -> c' !! k = c !! k) /\
    (forall j, j <> 0 -> cds' !! j = (JObj c :: rest) !! j) /\
    (forall k, k ∉ popped_keys -> k <> "containerDefinitions" ->
               out !! k = m !! k) /\
    (forall k, k ∈ popped_keys -> out !! k = None) /\
    ((forall r, r ∈ rest -> ~ image_is img r) ->
     forall j cj, cds' !! j = Some cj -> image_is img cj -> j = 0).
Proof.
  intros Hcd.
  exists (pop_all popped_keys
            (<["containerDefinitions" :=
                 JArr (JObj (<["image" := JStr img]> c) :: rest)]> m)),
         (JObj (<["image" := JStr img]> c) :: rest),
         (<["image" := JStr img]> c).
  split; [by apply migrate_ok|].
  split; [apply lookup_migrated_cd|].
  split; [reflexivity|].
  split; [reflexivity|].
  split; [apply lookup_insert_eq|].
  split; [intros k Hk; by apply lookup_insert_ne|].
  split; [intros [|j] Hj; [done|reflexivity]|].
  split.
  { intros k Hk Hne. rewrite lookup_pop_all_notin by done.
    by apply lookup_insert_ne. }
  split; [intros k Hk; by apply lookup_pop_all_in|].
  intros Hrest [|j] cj Hj Himg; [reflexivity|].
  exfalso. apply (Hrest cj); [|done].
  apply list_elem_of_lookup. by exists j.
Qed.

Lemma migrate_frame_witness :
  exists out cds' c',
    migrate td_two "repo:9f3c2d1" = Ok (JObj out) /\
    out !! "containerDefinitions" = Some (JArr cds') /\
    length cds' = 2 /\
    cds' !! 0 = Some (JObj c') /\
    c' !! "image" = Some (JStr "repo:9f3c2d1") /\
    cds' !! 1 = entries_two !! 1 /\
    out !! "cpu" = Some (JStr "256").
Proof.
  pose (m := {[ "containerDefinitions" := JArr entries_two;
                "cpu" := JStr "256" ]} : gmap string json).
  pose (c := {[ "name" := JStr "app";
                "image" := JStr "repo:latest" ]} : gmap string json).
  pose (rest := [ JObj {[ "name" := JStr "sidecar";
                          "image" := JStr "repo:latest" ]} ]).
  assert (Hin : m !! "containerDefinitions" = Some (JArr (JObj c :: rest)))
    by reflexivity.
  destruct (migrate_frame m c rest "repo:9f3c2d1" Hin)
    as (out & cds' & c' & Hm & Hcd & Hlen & H0 & Himg & _ & Hj & Hk & _).
  exists out, cds', c'.
  split; [exact Hm|]. split; [exact Hcd|]. split; [exact Hlen|].
  split; [exact H0|]. split; [exact Himg|].
  split; [apply Hj; discriminate|].
  rewrite Hk; [reflexivity| |discriminate].
  unfold popped_keys. rewrite !not_elem_of_cons.
  repeat split; try discriminate. apply not_elem_of_nil.
Defined.

(** C7: a second [migrate] with the same image reference succeeds and
    returns the very document the first one returned; in particular the
    image of the rewritten entry is the new reference after one pass and
    after two. *)
Theorem migrate_idempotent (td : json) (img : string) (d : json) :
  migrate td img = Ok d ->
  migrate d img = Ok d /\ entry_image d = Ok (JStr img).
Proof.
  intros H.
  destruct (migrate_ok_inv _ _ _ H) as (m & c & rest & -> & Hcd & ->).
  split.
  - erewrite migrate_ok by apply lookup_migrated_cd.
    do 2 f_equal. rewrite insert_insert_eq.
    apply map_eq. intros k. rewrite !lookup_pop_all.
    case_decide as Hk; [done|].
    rewrite !lookup_insert. case_decide; [done|].
    rewrite lookup_pop_all. rewrite decide_False by done.
    by rewrite lookup_insert_ne.
  - unfold entry_image. cbn [getitem_str mbind result_bind].
    rewrite lookup_migrated_cd.
    cbn [getitem_0 getitem_str mbind result_bind].
    by rewrite lookup_insert_eq.
Qed.

Lemma migrate_idempotent_witness :
  migrate td_A "repo:abc1234" = Ok out_A /\
  migrate out_A "repo:abc1234" = Ok out_A /\
  entry_image out_A = Ok (JStr "repo:abc1234").
Proof.
  split; [reflexivity|].
  apply (migrate_idempotent td_A "repo:abc1234" out_A). reflexivity.
Defined.
End MigrateClaims.

(** ** Theorems about the environment configuration *)

Section Config.
Implicit Types (env_configs : gmap string env_config) (env_name : string).

(** Without a ["dev"] entry the resolution fails for every key. *)
Lemma resolve_config_no_dev env_configs env_name :
  env_configs !! "dev" = None ->
  resolve_config env_configs env_name = Raise (KeyError "dev").
Proof. intros H. unfold resolve_config. by rewrite H. Qed.

(** C4: over a mapping that has a ["dev"] entry, the resolution returns
    the entry of the requested key when the mapping has one, and the
    ["dev"] entry, not an error, when it has none. *)
Theorem resolve_config_fallback env_configs env_name (dev : env_config) :
  env_configs !! "dev" = Some dev ->
  (forall config, env_configs !! env_name = Some config ->
                  resolve_config env_configs env_name = Ok config) /\
  (env_configs !! env_name = None ->
   resolve_config env_configs env_name = Ok dev).
Proof.
  intros Hdev. unfold resolve_config. rewrite Hdev.
  split; [intros config Hc | intros Hc]; by rewrite Hc.
Qed.
End Config.

Lemma resolve_config_fallback_witness :
  sample_configs !! "dev" = Some dev_config /\
  resolve_config sample_configs "prod" = Ok prod_config /\
  resolve_config sample_configs "qa" = Ok dev_config.
Proof.
  assert (Hdev : sample_configs !! "dev" = Some dev_config) by reflexivity.
  split; [exact Hdev|]. split.
  - apply (resolve_config_fallback sample_configs "prod" dev_config Hdev).
    reflexivity.
  - apply (resolve_config_fallback sample_configs "qa" dev_config Hdev).
    reflexivity.
Defined.

(** ** Theorems about the security group and the scaling bounds *)

(** The rules added to the group held in [alb_security_group]: the HTTP
    rule in every environment, the HTTPS rule in the ["prod"] environment
    and in no other. *)
Lemma https_only_in_prod (env_name : string) :
  http_rule ∈ alb_ingress_rules env_name /\
  (https_rule ∈ alb_ingress_rules env_name <-> env_name = "prod") /\
  (forall r, r ∈ alb_ingress_rules env_name -> r = http_rule \/ r = https_rule).
Proof.
  unfold alb_ingress_rules. destruct (String.eqb_spec env_name "prod") as [->|Hne].
  - split; [by left|]. split.
    + split; [done|]. intros _. right. by left.
    + intros r Hr. apply elem_of_cons in Hr as [->|Hr]; [by left|].
      apply list_elem_of_singleton in Hr as ->. by right.
  - split; [by left|]. split.
    + split; [|done]. intros H. apply list_elem_of_singleton in H. discriminate.
    + intros r Hr. apply list_elem_of_singleton in Hr as ->. by left.
Qed.

(** C9, on the code: the group that gets the HTTP rule, and the HTTPS rule
    in ["prod"], is handed to the Fargate service, not to the load
    balancer.  No group the function creates is attached to the load
    balancer; a group that is attached and has the HTTPS rule is attached
    to the Fargate service, in ["prod"]; and in ["prod"] the Fargate
    service does carry that rule. *)
Theorem https_rule_not_on_load_balancer (env_name : string) :
  (forall g, g ∉ attached_security_groups LoadBalancer) /\
  (forall t g,
     g ∈ attached_security_groups t ->
     https_rule ∈ security_group_ingress g env_name ->
     t = FargateService /\ g = AlbSecurityGroup /\ env_name = "prod") /\
  (exists g, g ∈ attached_security_groups FargateService /\
             http_rule ∈ security_group_ingress g env_name /\
             https_rule ∈ security_group_ingress g "prod").
Proof.
  split; [|split].
  - intros g. simpl. apply not_elem_of_nil.
  - intros [|] g Hg Hr; simpl in Hg.
    + by apply not_elem_of_nil in Hg.
    + apply list_elem_of_singleton in Hg as ->. simpl in Hr.
      split; [reflexivity|]. split; [reflexivity|].
      unfold alb_ingress_rules in Hr.
      destruct (String.eqb_spec env_name "prod") as [Heq|Hne]; [exact Heq|].
      apply list_elem_of_singleton in Hr. discriminate.
  - exists AlbSecurityGroup. split; [by left|]. split; [by left|].
    right. by left.
Qed.

(** C10: the scaling target's minimum is the configured desired count and
    its maximum exactly three times that count, so no task count within
    the bounds exceeds three times the desired count. *)
Theorem autoscaling_bounds (config : env_config) :
  min_capacity (auto_scale_task_count config) = desired_count config /\
  max_capacity (auto_scale_task_count config) = (3 * desired_count config)%Z /\
  forall running, within_bounds (auto_scale_task_count config) running ->
                  (running <= 3 * desired_count config)%Z.
Proof.
  unfold within_bounds. simpl. repeat split; lia.
Qed.

Lemma autoscaling_bounds_witness :
  within_bounds (auto_scale_task_count prod_config) 9%Z /\ (9 <= 3 * 3)%Z.
Proof.
  assert (H : within_bounds (auto_scale_task_count prod_config) 9%Z)
    by (unfold within_bounds; simpl; lia).
  split; [exact H|].
  exact (proj2 (proj2 (autoscaling_bounds prod_config)) 9%Z H).
Defined.

(** ** Theorems about the image tag and the pushes *)

Section ImageTag.
Implicit Types (uri v tag : string).

Lemma length_substring_0 (n : nat) : forall v,
  String.length (substring 0 n v) = Nat.min n (String.length v).
Proof.
  induction n as [|n IH]; intros [|a v]; simpl; try reflexivity.
  by rewrite IH.
Qed.

Lemma image_tag_nonempty v : v <> "" -> image_tag v = substring 0 7 v.
Proof. destruct v as [|a v]; [done|reflexivity]. Qed.

Lemma image_tag_length v :
  7 <= String.length v -> String.length (image_tag v) = 7.
Proof.
  intros Hlen. rewrite image_tag_nonempty.
  - rewrite length_substring_0. lia.
  - intros ->. simpl in Hlen. lia.
Qed.

Lemma image_reference_inj uri tag1 tag2 :
  image_reference uri tag1 = image_reference uri tag2 -> tag1 = tag2.
Proof.
  unfold image_reference. induction uri as [|a uri IH]; simpl; intros H.
  - by injection H.
  - injection H as H. by apply IH.
Qed.

Lemma uniquely_tagged_latest uri :
  uniquely_tagged uri [image_reference uri "latest"] = [].
Proof.
  unfold uniquely_tagged. rewrite filter_cons, decide_False; [done|].
  intros H. by apply H.
Qed.

(** C8, as the specification states it, fails: when no commit hash is
    available the tag is [latest], both pushes go to the [latest] alias
    and no uniquely tagged reference is pushed. *)
Lemma no_unique_push_without_hash :
  ~ (tag_claim "" /\
     unique_push_claim "1234.dkr.ecr.us-east-1.amazonaws.com/devops-app-dev" "").
Proof. intros [_ [Hlen _]]. vm_compute in Hlen. discriminate. Qed.

Lemma substring_0_short (n : nat) : forall v,
  String.length v <= n -> substring 0 n v = v.
Proof.
  induction n as [|n IH]; intros [|a v] H; simpl in *; try reflexivity.
  - lia.
  - rewrite IH; [reflexivity|lia].
Qed.

Lemma image_tag_latest_iff v :
  image_tag v = "latest" <-> v = "" \/ v = "latest".
Proof.
  split.
  - intros H. destruct (decide (v = "")) as [->|Hne]; [by left|]. right.
    rewrite image_tag_nonempty in H by done.
    destruct (le_gt_dec (String.length v) 7) as [Hle|Hgt].
    + by rewrite substring_0_short in H.
    + apply (f_equal String.length) in H.
      rewrite length_substring_0 in H.
      change (String.length "latest") with 6 in H. lia.
  - by intros [->| ->].
Qed.

(** C8 (amended): for a resolved source version that is empty or one word
    of letters, digits and [- _ . : /] not starting with a dash, the image
    tag is [latest] when the version is empty and its first seven
    characters otherwise (seven characters long whenever the version has
    at least seven); the tag is [latest] exactly when the version is empty
    or is the word [latest]; the build pushes the reference with that tag
    and then the [latest] alias; when the tag is not [latest] the first
    push is the one uniquely tagged reference, and when the tag is
    [latest] there is none. *)
Theorem image_tag_and_pushes uri v :
  version_word v = true ->
  (v = "" -> image_tag v = "latest") /\
  (v <> "" -> image_tag v = substring 0 7 v) /\
  (7 <= String.length v ->
   String.length (image_tag v) = 7 /\ image_tag v <> "latest") /\
  (image_tag v = "latest" <-> v = "" \/ v = "latest") /\
  pushed_references uri v =
    [ image_reference uri (image_tag v); image_reference uri "latest" ] /\
  (image_tag v <> "latest" ->
   uniquely_tagged uri (pushed_references uri v) =
     [ image_reference uri (image_tag v) ]) /\
  (image_tag v = "latest" ->
   uniquely_tagged uri (pushed_references uri v) = []).
Proof.
  intros _.
  split; [by intros ->|].
  split; [apply image_tag_nonempty|].
  split.
  { intros Hlen. pose proof (image_tag_length v Hlen) as H7.
    split; [exact H7|]. intros H. rewrite H in H7. simpl in H7. lia. }
  split; [apply image_tag_latest_iff|].
  split; [reflexivity|].
  split.
  - intros Hne. unfold pushed_references, uniquely_tagged.
    rewrite filter_cons, decide_True.
    + f_equal. apply uniquely_tagged_latest.
    + intros H. by apply image_reference_inj in H.
  - intros Heq. unfold pushed_references, uniquely_tagged.
    rewrite filter_cons, decide_False; [apply uniquely_tagged_latest|].
    intros H. apply H. by rewrite Heq.
Qed.

Lemma image_tag_and_pushes_witness :
  version_word "9f3c2d1a7b5e4c6d8f0a1b2c3d4e5f60718293a4" = true /\
  image_tag "9f3c2d1a7b5e4c6d8f0a1b2c3d4e5f60718293a4" = "9f3c2d1" /\
  uniquely_tagged "repo"
    (pushed_references "repo" "9f3c2d1a7b5e4c6d8f0a1b2c3d4e5f60718293a4") =
    [ "repo:9f3c2d1" ].
Proof.
  assert (Hw : version_word "9f3c2d1a7b5e4c6d8f0a1b2c3d4e5f60718293a4" = true)
    by reflexivity.
  pose proof (image_tag_and_pushes "repo"
                "9f3c2d1a7b5e4c6d8f0a1b2c3d4e5f60718293a4" Hw)
    as (_ & Htag & _ & _ & _ & Huniq & _).
  split; [exact Hw|]. split.
  - rewrite Htag; [reflexivity|discriminate].
  - rewrite Huniq; [reflexivity|discriminate].
Defined.
End ImageTag.

(** ** Theorems about the rollout sequencer *)

Section RunPhase.
Variable exit_ok : command -> bool.
Implicit Types (cmds : list command) (st : rollout_state).

Lemma run_phase_cons_ok c cmds st :
  exit_ok c = true ->
  run_phase exit_ok (c :: cmds) st =
    (Started c (enter c st) :: Exited c true
       :: (run_phase exit_ok cmds (enter c st)).1,
     (run_phase exit_ok cmds (enter c st)).2).
Proof.
  intros H. simpl. rewrite H.
  by destruct (run_phase exit_ok cmds (enter c st)).
Qed.

Lemma run_phase_cons_fail c cmds st :
  exit_ok c = false ->
  run_phase exit_ok (c :: cmds) st =
    ([Started c (enter c st); Exited c false], Failed).
Proof. intros H. simpl. by rewrite H. Qed.

Lemma run_phase_terminal cmds : forall st,
  (run_phase exit_ok cmds st).2 = Stable \/
  (run_phase exit_ok cmds st).2 = Failed.
Proof.
  induction cmds as [|c cmds IH]; intros st; [by left|].
  destruct (exit_ok c) eqn:E.
  - rewrite run_phase_cons_ok by done. apply IH.
  - rewrite run_phase_cons_fail by done. by right.
Qed.

Lemma run_phase_stable_iff cmds : forall st,
  (run_phase exit_ok cmds st).2 = Stable <-> forallb exit_ok cmds = true.
Proof.
  induction cmds as [|c cmds IH]; intros st; [done|].
  simpl forallb. destruct (exit_ok c) eqn:E.
  - rewrite run_phase_cons_ok by done. apply IH.
  - rewrite run_phase_cons_fail by done. done.
Qed.

Lemma run_phase_sequential cmds : forall st,
  sequential (run_phase exit_ok cmds st).1.
Proof.
  induction cmds as [|c cmds IH]; intros st; [done|].
  destruct (exit_ok c) eqn:E.
  - rewrite run_phase_cons_ok by done. simpl. split; [done|apply IH].
  - rewrite run_phase_cons_fail by done. by simpl.
Qed.

(** The commands started are an initial segment of the phase, and the
    whole phase when it ends in [Stable]. *)
Lemma run_phase_started cmds : forall st,
  started (run_phase exit_ok cmds st).1 `prefix_of` cmds /\
  ((run_phase exit_ok cmds st).2 = Stable ->
   started (run_phase exit_ok cmds st).1 = cmds).
Proof.
  induction cmds as [|c cmds IH]; intros st; [done|].
  destruct (exit_ok c) eqn:E.
  - rewrite run_phase_cons_ok by done. simpl.
    destruct (IH (enter c st)) as [Hp Hs]. split.
    + by apply prefix_cons.
    + intros H. f_equal. by apply Hs.
  - rewrite run_phase_cons_fail by done. simpl. split; [|done].
    apply prefix_cons, prefix_nil.
Qed.

Lemma run_phase_visited cmds : forall st,
  visited (run_phase exit_ok cmds st).1 `prefix_of` states_during cmds st.
Proof.
  induction cmds as [|c cmds IH]; intros st; [done|].
  destruct (exit_ok c) eqn:E.
  - rewrite run_phase_cons_ok by done. simpl. apply prefix_cons, IH.
  - rewrite run_phase_cons_fail by done. simpl.
    apply prefix_cons, prefix_nil.
Qed.
End RunPhase.

Lemma rollout_steps_prefix (l1 l2 : list command) :
  l1 `prefix_of` l2 -> rollout_steps l1 `prefix_of` rollout_steps l2.
Proof.
  intros [k ->]. unfold rollout_steps. rewrite List.filter_app.
  by apply prefix_app_r.
Qed.

(** In a list sorted by rank, positions and ranks grow together. *)
Lemma ranks_sorted_lookup (l : list rollout_state) :
  StronglySorted (fun a b => rank a <= rank b) l ->
  forall i j s s', i <= j -> l !! i = Some s -> l !! j = Some s' ->
                   rank s <= rank s'.
Proof.
  induction 1 as [|x l Hs IH Hall]; intros i j s s' Hij Hi Hj; [done|].
  destruct i as [|i], j as [|j]; simpl in *; try lia.
  - by injection Hi as <-; injection Hj as <-.
  - injection Hi as <-. rewrite Forall_forall in Hall.
    apply Hall. apply list_elem_of_lookup. by exists j.
  - apply (IH i j); [lia|done..].
Qed.

Lemma deploy_states_sorted (config : env_config) :
  StronglySorted (fun a b => rank a <= rank b)
    (states_during (deploy_build_commands config) Idle).
Proof. simpl. repeat (constructor; [|repeat constructor]). constructor. Qed.

(** C5: in every invocation of the deploy build phase, whatever the
    commands' exit statuses, the commands run one at a time; the rollout
    steps performed are an initial segment of Register, Update, Wait, in
    that order, and all three when the invocation ends in [Stable]; the
    invocation ends in [Stable] or [Failed]; the states visited never go
    back, so [Idle] is not entered again once left. *)
Theorem rollout_in_order (exit_ok : command -> bool) (config : env_config) :
  let log := (deploy exit_ok config).1 in
  let final := (deploy exit_ok config).2 in
  (final = Stable \/ final = Failed) /\
  sequential log /\
  rollout_steps (started log)
    `prefix_of` [RegisterTaskDefinition; UpdateService; WaitServicesStable] /\
  (final = Stable ->
   rollout_steps (started log) =
     [RegisterTaskDefinition; UpdateService; WaitServicesStable]) /\
  (final = Stable <->
   forallb exit_ok (deploy_build_commands config) = true) /\
  (forall i j s s', i <= j ->
     visited log !! i = Some s -> visited log !! j = Some s' ->
     rank s <= rank s') /\
  (forall i j s, i <= j ->
     visited log !! i = Some s -> s <> Idle -> visited log !! j <> Some Idle).
Proof.
  intros log final. subst log final. unfold deploy.
  set (cmds := deploy_build_commands config).
  destruct (run_phase_started exit_ok cmds Idle) as [Hpre Hall].
  assert (Hmono : forall i j s s', i <= j ->
            visited (run_phase exit_ok cmds Idle).1 !! i = Some s ->
            visited (run_phase exit_ok cmds Idle).1 !! j = Some s' ->
            rank s <= rank s').
  { intros i j s s' Hij Hi Hj.
    destruct (run_phase_visited exit_ok cmds Idle) as [k Hk].
    apply (ranks_sorted_lookup _ (deploy_states_sorted config) i j);
      [done|fold cmds; rewrite Hk; by apply lookup_app_l_Some..]. }
  split; [apply run_phase_terminal|].
  split; [apply run_phase_sequential|].
  split; [apply (rollout_steps_prefix _ cmds Hpre)|].
  split; [intros H; by rewrite (Hall H)|].
  split; [apply run_phase_stable_iff|].
  split; [exact Hmono|].
  intros i j s Hij Hi Hne Hj.
  pose proof (Hmono i j s Idle Hij Hi Hj) as Hr.
  destruct s; simpl in Hr; first [done | lia].
Qed.

Lemma rollout_in_order_witness :
  (deploy (fun _ => true) dev_config).2 = Stable /\
  rollout_steps (started (deploy (fun _ => true) dev_config).1) =
    [RegisterTaskDefinition; UpdateService; WaitServicesStable].
Proof.
  assert (H : (deploy (fun _ => true) dev_config).2 = Stable) by reflexivity.
  split; [exact H|].
  exact (proj1 (proj2 (proj2 (proj2
           (rollout_in_order (fun _ => true) dev_config)))) H).
Defined.

(** A rejected registration ends the invocation: the service is neither
    updated nor awaited. *)
Example deploy_register_rejected :
  let exit_ok c := match c with RegisterTaskDefinition => false | _ => true end in
  (deploy exit_ok dev_config).2 = Failed /\
  rollout_steps (started (deploy exit_ok dev_config).1) = [RegisterTaskDefinition].
Proof. split; reflexivity. Qed.

(** ** Theorems about the manifest *)

Section PlainStrings.
Implicit Types (c : ascii) (s r : string).

Lemma plain_char_ordinary c :
  plain_char c = true ->
  Ascii.eqb c dquote = false /\ Ascii.eqb c backslash = false /\
  Ascii.eqb c "%" = false /\ Ascii.eqb c newline = false /\
  (N_of_ascii c <? 32)%N = false.
Proof.
  destruct c as [[] [] [] [] [] [] [] []]; vm_compute; intros H;
    first [discriminate H | repeat split].
Qed.

Lemma append_nil r : String.append EmptyString r = r.
Proof. reflexivity. Qed.

Lemma append_cons c s r :
  String.append (String c s) r = String c (String.append s r).
Proof. reflexivity. Qed.

Lemma plain_cons c s :
  plain (String c s) = true -> plain_char c = true /\ plain s = true.
Proof. simpl. by intros [??]%andb_prop. Qed.

Lemma printf_plain s : forall r args,
  plain s = true ->
  printf (s ++ r) args = String.append s <$> printf r args.
Proof.
  induction s as [|c s IH]; intros r args Hs.
  - rewrite append_nil. destruct (printf r args); reflexivity.
  - apply plain_cons in Hs as [Hc Hs].
    destruct (plain_char_ordinary c Hc) as (_ & Hb & Hp & _).
    rewrite append_cons. cbn [printf]. rewrite Hp, Hb, (IH _ _ Hs).
    destruct (printf r args); reflexivity.
Qed.

Lemma scanstring_plain s : forall r,
  plain s = true -> scanstring (s ++ String dquote r) = Some (s, r).
Proof.
  induction s as [|c s IH]; intros r Hs; [reflexivity|].
  apply plain_cons in Hs as [Hc Hs].
  destruct (plain_char_ordinary c Hc) as (Hq & Hb & _ & _ & Hctl).
  rewrite append_cons. cbn [scanstring].
  by rewrite Hq, Hb, Hctl, (IH _ Hs).
Qed.

Lemma command_substitution_print s :
  plain s = true -> command_substitution (py_print s) = s.
Proof.
  unfold py_print. induction s as [|c s IH]; intros Hs; [reflexivity|].
  apply plain_cons in Hs as [Hc Hs].
  destruct (plain_char_ordinary c Hc) as (_ & _ & _ & Hn & _).
  rewrite append_cons. cbn [command_substitution]. rewrite (IH Hs).
  destruct s; [by rewrite Hn|done].
Qed.
End PlainStrings.

Section Manifest.
Implicit Types (name uri s r : string).

Lemma append_assoc s : forall r t : string,
  String.append (String.append s r) t = String.append s (String.append r t).
Proof.
  induction s as [|c s IH]; intros r t; [reflexivity|].
  by rewrite !append_cons, IH.
Qed.

Ltac normalize_append :=
  repeat first [rewrite append_cons | rewrite append_nil | rewrite append_assoc].

Lemma write_manifest_plain name uri :
  plain name = true ->
  write_manifest name uri = Some (manifest_text name uri).
Proof.
  intros Hname. unfold write_manifest, manifest_format, manifest_text, quoted.
  normalize_append.
  simpl. rewrite (printf_plain _ _ _ Hname). simpl. reflexivity.
Qed.

(** The decoder on the manifest text: the array of one object. *)
Lemma scan_once_manifest name uri (n : nat) :
  plain name = true -> plain uri = true ->
  scan_once (6 + n) (manifest_text name uri) =
    Some (manifest_value name uri, EmptyString).
Proof.
  intros Hname Huri. unfold manifest_text, quoted. normalize_append.
  simpl. rewrite (scanstring_plain name _ Hname). simpl.
  rewrite (scanstring_plain uri _ Huri). simpl.
  normalize_append. unfold manifest_value, dict_of_pairs. simpl.
  rewrite insert_insert_ne by discriminate. by rewrite insert_empty.
Qed.

Lemma manifest_text_length name uri :
  exists n, 2 * String.length (manifest_text name uri) + 2 = 6 + n.
Proof.
  unfold manifest_text, quoted. normalize_append. simpl.
  eexists. rewrite Nat.add_succ_r. simpl. reflexivity.
Qed.

Lemma json_loads_manifest name uri :
  plain name = true -> plain uri = true ->
  json_loads (manifest_text name uri) = Ok (manifest_value name uri).
Proof.
  intros Hname Huri. unfold json_loads.
  destruct (manifest_text_length name uri) as [n ->].
  assert (Hws : skip_ws (manifest_text name uri) = manifest_text name uri).
  { unfold manifest_text, quoted. by normalize_append. }
  rewrite Hws. by rewrite scan_once_manifest.
Qed.

(** C6: for a container name and an image reference made of letters,
    digits and [- _ . : /], the build stage writes a manifest whose text
    decodes to a JSON array of exactly one object, with the two keys
    [name] and [imageUri]; the name and the image reference read back
    from it are the ones written, and the [IMAGE_URI] variable of the
    later stages holds the image reference written. *)
Theorem manifest_round_trip name uri :
  plain name = true -> plain uri = true ->
  exists text m,
    write_manifest name uri = Some text /\
    json_loads text = Ok (JArr [JObj m]) /\
    dom m = {[ "name"; "imageUri" ]} /\
    manifest_name text = Ok (JStr name) /\
    manifest_image_uri text = Ok (JStr uri) /\
    command_substitution (py_print uri) = uri.
Proof.
  intros Hname Huri.
  exists (manifest_text name uri),
         {[ "name" := JStr name; "imageUri" := JStr uri ]}.
  split; [by apply write_manifest_plain|].
  split; [by apply json_loads_manifest|].
  split; [by rewrite dom_insert_L, dom_singleton_L|].
  unfold manifest_name, manifest_image_uri.
  rewrite (json_loads_manifest _ _ Hname Huri).
  split; [reflexivity|]. split; [reflexivity|].
  by apply command_substitution_print.
Qed.

Lemma manifest_round_trip_witness :
  plain "devops-app" = true /\
  plain "1234.dkr.ecr.us-east-1.amazonaws.com/devops-app-dev:9f3c2d1" = true /\
  exists text,
    write_manifest "devops-app"
      "1234.dkr.ecr.us-east-1.amazonaws.com/devops-app-dev:9f3c2d1" = Some text /\
    manifest_name text = Ok (JStr "devops-app") /\
    manifest_image_uri text =
      Ok (JStr "1234.dkr.ecr.us-east-1.amazonaws.com/devops-app-dev:9f3c2d1").
Proof.
  split; [reflexivity|]. split; [reflexivity|].
  destruct (manifest_round_trip "devops-app"
              "1234.dkr.ecr.us-east-1.amazonaws.com/devops-app-dev:9f3c2d1"
              eq_refl eq_refl)
    as (text & m & Hw & _ & _ & Hn & Hu & _).
  exists text. repeat split; assumption.
Defined.

(** Outside those characters the text is written as it comes: a quote in
    the container name ends the JSON string early and the later stages
    cannot decode the manifest. *)
Example manifest_name_with_quote :
  manifest_image_uri <$> write_manifest (String "a" (String dquote "b")) "repo:1"
  = Some (Raise JSONDecodeError).
Proof. reflexivity. Qed.
End Manifest.

(** * Further properties of the code *)

(** ** Strings *)

Section Strings.
Implicit Types (s t p : string).

Lemma length_append s : forall t,
  String.length (String.append s t) = String.length s + String.length t.
Proof.
  induction s as [|c s IH]; intros t; [reflexivity|].
  rewrite append_cons. simpl. by rewrite IH.
Qed.

Lemma append_inj_l p : forall s t,
  String.append p s = String.append p t -> s = t.
Proof.
  induction p as [|c p IH]; intros s t H; [exact H|].
  rewrite !append_cons in H. injection H as H. by apply IH.
Qed.

Lemma append_inj_r s1 : forall s2 t,
  String.append s1 t = String.append s2 t -> s1 = s2.
Proof.
  induction s1 as [|c s1 IH]; intros [|d s2] t H.
  - reflexivity.
  - apply (f_equal String.length) in H.
    rewrite append_nil, append_cons in H. simpl in H.
    rewrite length_append in H. exfalso. lia.
  - apply (f_equal String.length) in H.
    rewrite append_nil, append_cons in H. simpl in H.
    rewrite length_append in H. exfalso. lia.
  - rewrite !append_cons in H. injection H as -> H. f_equal. by apply (IH _ t).
Qed.

Lemma plain_append s : forall t,
  plain (String.append s t) = plain s && plain t.
Proof.
  induction s as [|c s IH]; intros t; [reflexivity|].
  rewrite append_cons. simpl. rewrite IH. by rewrite andb_assoc.
Qed.

Lemma plain_substring_0 (n : nat) : forall s,
  plain s = true -> plain (substring 0 n s) = true.
Proof.
  induction n as [|n IH]; intros [|c s] H; try reflexivity.
  apply plain_cons in H as [Hc Hs]. simpl. by rewrite Hc, IH.
Qed.

Lemma plain_image_tag s : plain s = true -> plain (image_tag s) = true.
Proof.
  destruct s as [|c s]; [reflexivity|]. intros H.
  rewrite image_tag_nonempty by discriminate. by apply plain_substring_0.
Qed.
End Strings.

(** ** The task-definition rewrite *)

(** X1: deploying an image over a document already rewritten for another
    image gives the document a single rewrite of the original for the
    later image gives: the last image wins and nothing of the first
    remains. *)
Theorem migrate_last_wins (td : json) (a b : string) (d : json) :
  migrate td a = Ok d -> migrate d b = migrate td b.
Proof.
  intros H.
  destruct (migrate_ok_inv _ _ _ H) as (m & c & rest & -> & Hcd & ->).
  erewrite migrate_ok by apply lookup_migrated_cd.
  rewrite (migrate_ok _ _ _ _ Hcd).
  do 2 f_equal. rewrite insert_insert_eq.
  apply map_eq. intros k. rewrite !lookup_pop_all.
  case_decide as Hk; [done|].
  rewrite !lookup_insert. case_decide; [done|].
  rewrite lookup_pop_all. rewrite decide_False by done.
  by rewrite lookup_insert_ne.
Qed.

Lemma migrate_last_wins_witness :
  migrate td_A "repo:1111111" =
    Ok (JObj {[ "containerDefinitions" :=
                  JArr [ JObj {[ "name" := JStr "app";
                                 "image" := JStr "repo:1111111" ]} ] ]}) /\
  migrate (JObj {[ "containerDefinitions" :=
                     JArr [ JObj {[ "name" := JStr "app";
                                    "image" := JStr "repo:1111111" ]} ] ]})
          "repo:abc1234" = Ok out_A.
Proof.
  assert (H : migrate td_A "repo:1111111" =
    Ok (JObj {[ "containerDefinitions" :=
                  JArr [ JObj {[ "name" := JStr "app";
                                 "image" := JStr "repo:1111111" ]} ] ]}))
    by reflexivity.
  split; [exact H|].
  rewrite (migrate_last_wins td_A "repo:1111111" "repo:abc1234" _ H).
  reflexivity.
Defined.

(** X13: for image references made of letters, digits and [- _ . : /],
    whether the rewrite fails, and with which exception, depends on the
    document alone: no such reference makes it fail or succeed. *)
Theorem migrate_failure_independent_of_image (td : json) (a b : string) :
  plain a = true -> plain b = true ->
  (forall e, migrate td a = Raise e <-> migrate td b = Raise e) /\
  ((exists d, migrate td a = Ok d) <-> (exists d, migrate td b = Ok d)).
Proof.
  intros _ _.
  assert (H : forall x y, (forall e, migrate td x = Raise e ->
                                     migrate td y = Raise e) /\
                          ((exists d, migrate td x = Ok d) ->
                           exists d, migrate td y = Ok d)).
  { intros x y. split.
    - intros e. unfold migrate.
      destruct td as [| | | | |m]; simpl; try done.
      destruct (m !! "containerDefinitions") as [cds|]; simpl; [|done].
      destruct cds as [| | |s|l|o]; simpl; try done.
      + by destruct s.
      + destruct l as [|e0 l]; simpl; [done|]. by destruct e0.
    - intros [d Hd].
      destruct (migrate_ok_inv _ _ _ Hd) as (m & c & rest & -> & Hcd & _).
      eexists. by apply migrate_ok. }
  split.
  - intros e. split; apply H.
  - split; apply H.
Qed.

Lemma migrate_failure_independent_of_image_witness :
  plain "repo:1111111" = true /\ plain "repo:abc1234" = true /\
  (exists d, migrate td_A "repo:1111111" = Ok d) /\
  (exists d, migrate td_A "repo:abc1234" = Ok d).
Proof.
  assert (Ha : plain "repo:1111111" = true) by reflexivity.
  assert (Hb : plain "repo:abc1234" = true) by reflexivity.
  assert (H1 : exists d, migrate td_A "repo:1111111" = Ok d)
    by (eexists; reflexivity).
  split; [exact Ha|]. split; [exact Hb|]. split; [exact H1|].
  exact (proj1 (proj2 (migrate_failure_independent_of_image td_A
                         "repo:1111111" "repo:abc1234" Ha Hb)) H1).
Defined.

(** ** The image tag *)

(** X2: the image tag is never empty and never longer than seven
    characters; it is [latest] or an initial part of the resolved source
    version; and it is made of the characters of image references whenever
    the version is. *)
Theorem image_tag_shape (v : string) :
  1 <= String.length (image_tag v) <= 7 /\
  (image_tag v = "latest" \/ exists rest, v = image_tag v ++ rest) /\
  (plain v = true -> plain (image_tag v) = true).
Proof.
  split; [|split].
  - destruct v as [|c v]; [simpl; lia|].
    rewrite image_tag_nonempty by discriminate.
    rewrite length_substring_0. cbn [String.length]. lia.
  - destruct v as [|c v]; [by left|]. right.
    rewrite image_tag_nonempty by discriminate.
    generalize (String c v). clear c v. generalize 7.
    induction n as [|n IH]; intros [|c s].
    + by exists EmptyString.
    + by exists (String c s).
    + by exists EmptyString.
    + destruct (IH s) as [rest Hrest]. exists rest.
      simpl. rewrite append_cons. by rewrite <- Hrest.
  - apply plain_image_tag.
Qed.

Lemma image_tag_shape_witness :
  plain "9f3c2d1a7b5e4c6d8f0a1b2c3d4e5f60718293a4" = true /\
  plain (image_tag "9f3c2d1a7b5e4c6d8f0a1b2c3d4e5f60718293a4") = true.
Proof.
  assert (H : plain "9f3c2d1a7b5e4c6d8f0a1b2c3d4e5f60718293a4" = true)
    by reflexivity.
  split; [exact H|].
  exact (proj2 (proj2 (image_tag_shape _)) H).
Defined.

(** ** The environment configuration *)

(** X3: the resolution fails exactly when the mapping has no ["dev"]
    entry, and then with [KeyError "dev"] whatever the requested key is,
    also a key the mapping has; a configuration it returns is the entry of
    the requested key, or the ["dev"] entry when the key has none. *)
Theorem resolve_config_outcome (env_configs : gmap string env_config)
    (env_name : string) :
  (env_configs !! "dev" = None <->
   resolve_config env_configs env_name = Raise (KeyError "dev")) /\
  (forall e, resolve_config env_configs env_name = Raise e ->
             e = KeyError "dev" /\ env_configs !! "dev" = None) /\
  (forall config, resolve_config env_configs env_name = Ok config ->
     env_configs !! env_name = Some config \/
     (env_configs !! env_name = None /\ env_configs !! "dev" = Some config)).
Proof.
  unfold resolve_config.
  destruct (env_configs !! "dev") as [dev|] eqn:Hdev;
    destruct (env_configs !! env_name) as [config|] eqn:Hc;
    repeat split; intros; try discriminate; try congruence;
    first [ by left; congruence | by right; split; congruence | idtac ].
Qed.

Lemma resolve_config_outcome_witness :
  resolve_config {[ "prod" := prod_config ]} "prod" = Raise (KeyError "dev") /\
  ({[ "prod" := prod_config ]} : gmap string env_config) !! "dev" = None.
Proof.
  assert (H : resolve_config {[ "prod" := prod_config ]} "prod"
              = Raise (KeyError "dev")) by reflexivity.
  split; [exact H|].
  exact (proj2 (proj1 (proj2 (resolve_config_outcome _ _)) _ H)).
Defined.

(** ** Resource names *)

(** X5: within one account, no resource name is shared by two
    environments: each name of the two stacks determines the environment
    name; and the three build projects of any two environments have
    different names. *)
Theorem resource_names_injective (e1 e2 account : string) :
  (vpc_name e1 = vpc_name e2 -> e1 = e2) /\
  (ecs_cluster_name e1 = ecs_cluster_name e2 -> e1 = e2) /\
  (log_group_name e1 = log_group_name e2 -> e1 = e2) /\
  (task_family e1 = task_family e2 -> e1 = e2) /\
  (ecs_service_name e1 = ecs_service_name e2 -> e1 = e2) /\
  (pipeline_repository_name e1 = pipeline_repository_name e2 -> e1 = e2) /\
  (pipeline_name e1 = pipeline_name e2 -> e1 = e2) /\
  (artifacts_bucket_name e1 account = artifacts_bucket_name e2 account ->
   e1 = e2) /\
  (build_project_name e1 = build_project_name e2 -> e1 = e2) /\
  (test_project_name e1 = test_project_name e2 -> e1 = e2) /\
  (deploy_project_name e1 = deploy_project_name e2 -> e1 = e2) /\
  build_project_name e1 <> test_project_name e2 /\
  build_project_name e1 <> deploy_project_name e2 /\
  test_project_name e1 <> deploy_project_name e2.
Proof.
  repeat split; try apply append_inj_l.
  - unfold artifacts_bucket_name. intros H.
    apply append_inj_l in H. by apply append_inj_r in H.
  - unfold build_project_name, test_project_name. intros H.
    apply (append_inj_l "devops-app-") in H. discriminate H.
  - unfold build_project_name, deploy_project_name. intros H.
    apply (append_inj_l "devops-app-") in H. discriminate H.
  - unfold test_project_name, deploy_project_name. intros H.
    apply (append_inj_l "devops-app-") in H. discriminate H.
Qed.

Lemma resource_names_injective_witness :
  artifacts_bucket_name "dev" "123456789012"
    = artifacts_bucket_name "dev" "123456789012" /\
  build_project_name "dev" <> test_project_name "dev".
Proof.
  pose proof (resource_names_injective "dev" "dev" "123456789012")
    as (_ & _ & _ & _ & _ & _ & _ & Hb & _ & _ & _ & Hbt & _).
  split; [reflexivity|exact Hbt].
Defined.

(** ** Environments the mapping does not list *)

(** X6: for two different environment names that the mapping does not
    list, the infrastructure stacks create two different services, while
    the two pipelines resolve the same ["dev"] entry and issue the same
    commands to describe, update and await a service: the service named by
    those commands is not the service of both environments. *)
Theorem unlisted_environments_share_deploy_target
    (env_configs : gmap string env_config) (dev : env_config)
    (e1 e2 account region : string) :
  env_configs !! "dev" = Some dev ->
  env_configs !! e1 = None -> env_configs !! e2 = None -> e1 <> e2 ->
  exists i1 i2 p1 p2,
    infrastructure_stack env_configs e1 region = Ok i1 /\
    infrastructure_stack env_configs e2 region = Ok i2 /\
    pipeline_stack env_configs e1 account = Ok p1 /\
    pipeline_stack env_configs e2 account = Ok p2 /\
    i_service_name i1 <> i_service_name i2 /\
    p_deploy_commands p1 = p_deploy_commands p2 /\
    p_deploy_commands p1 =
      [ describe_services_command dev; update_service_command dev;
        wait_command dev ] /\
    ~ (service_name dev = i_service_name i1 /\
       service_name dev = i_service_name i2).
Proof.
  intros Hdev H1 H2 Hne.
  unfold infrastructure_stack, pipeline_stack, resolve_config.
  rewrite Hdev, H1, H2. simpl.
  do 4 eexists. repeat split.
  - simpl. intros H. by apply append_inj_l in H.
  - simpl. intros [Ha Hb]. rewrite Ha in Hb. by apply append_inj_l in Hb.
Qed.

Lemma unlisted_environments_share_deploy_target_witness :
  sample_configs !! "dev" = Some dev_config /\
  sample_configs !! "qa" = None /\ sample_configs !! "uat" = None /\
  exists p1 p2,
    pipeline_stack sample_configs "qa" "123456789012" = Ok p1 /\
    pipeline_stack sample_configs "uat" "123456789012" = Ok p2 /\
    p_deploy_commands p1 = p_deploy_commands p2.
Proof.
  assert (Hdev : sample_configs !! "dev" = Some dev_config) by reflexivity.
  assert (H1 : sample_configs !! "qa" = None) by reflexivity.
  assert (H2 : sample_configs !! "uat" = None) by reflexivity.
  split; [exact Hdev|]. split; [exact H1|]. split; [exact H2|].
  destruct (unlisted_environments_share_deploy_target sample_configs
              dev_config "qa" "uat" "123456789012" "us-east-1"
              Hdev H1 H2 ltac:(discriminate))
    as (i1 & i2 & p1 & p2 & _ & _ & Hp1 & Hp2 & _ & Heq & _).
  exists p1, p2. repeat split; assumption.
Defined.

(** X7: an environment name the mapping does not list gets the sizing of
    the ["dev"] entry but not its log retention: the task's CPU, memory
    and desired count are those of ["dev"], the log group is kept one
    month where that of ["dev"] is kept one week. *)
Theorem unlisted_environment_sizing_and_retention
    (env_configs : gmap string env_config) (dev : env_config)
    (env_name region : string) :
  env_configs !! "dev" = Some dev -> env_configs !! env_name = None ->
  exists i i_dev,
    infrastructure_stack env_configs env_name region = Ok i /\
    infrastructure_stack env_configs "dev" region = Ok i_dev /\
    i_task_cpu i = i_task_cpu i_dev /\
    i_task_memory i = i_task_memory i_dev /\
    i_desired_count i = i_desired_count i_dev /\
    i_scaling i = i_scaling i_dev /\
    i_log_retention i_dev = ONE_WEEK /\
    i_log_retention i = ONE_MONTH.
Proof.
  intros Hdev Hnone.
  assert (Hne : env_name <> "dev") by congruence.
  unfold infrastructure_stack, resolve_config. rewrite Hdev, Hnone. simpl.
  do 2 eexists. repeat split. simpl. unfold log_retention.
  by destruct (String.eqb_spec env_name "dev").
Qed.

Lemma unlisted_environment_sizing_and_retention_witness :
  sample_configs !! "dev" = Some dev_config /\
  sample_configs !! "qa" = None /\
  exists i, infrastructure_stack sample_configs "qa" "us-east-1" = Ok i /\
            i_task_cpu i = 256%Z /\ i_log_retention i = ONE_MONTH.
Proof.
  assert (Hdev : sample_configs !! "dev" = Some dev_config) by reflexivity.
  assert (H1 : sample_configs !! "qa" = None) by reflexivity.
  split; [exact Hdev|]. split; [exact H1|].
  destruct (unlisted_environment_sizing_and_retention sample_configs
              dev_config "qa" "us-east-1" Hdev H1)
    as (i & i_dev & Hi & Hd & Hcpu & _ & _ & _ & _ & Hret).
  exists i. split; [exact Hi|]. split; [|exact Hret].
  rewrite Hcpu. revert Hd. vm_compute. intros [= <-]. reflexivity.
Defined.

(** ** The application entry point *)

(** X8: the application without an [env] context value, or with an empty
    one, declares the stacks it declares for ["dev"]; both stacks always
    get the same environment name, which is never empty and is the context
    value whenever that is not empty; and over a mapping with a ["dev"]
    entry the default environment resolves to that entry. *)
Theorem app_default_environment (context_env context_region : option string) :
  app_stacks None context_region = app_stacks (Some "dev") context_region /\
  app_stacks (Some "") context_region = app_stacks (Some "dev") context_region /\
  stack_env_name (app_stacks context_env context_region).1 =
    stack_env_name (app_stacks context_env context_region).2 /\
  stack_env_name (app_stacks context_env context_region).1 <> "" /\
  (forall s, context_env = Some s -> s <> "" ->
             stack_env_name (app_stacks context_env context_region).1 = s) /\
  (forall (env_configs : gmap string env_config) dev,
     env_configs !! "dev" = Some dev ->
     resolve_config env_configs (app_env_name None) = Ok dev).
Proof.
  repeat split.
  - destruct context_env as [[|c s]|]; discriminate.
  - intros s -> Hs. by destruct s.
  - intros env_configs dev Hdev. unfold resolve_config. simpl.
    by rewrite Hdev.
Qed.

Lemma app_default_environment_witness :
  sample_configs !! "dev" = Some dev_config /\
  resolve_config sample_configs (app_env_name None) = Ok dev_config.
Proof.
  assert (Hdev : sample_configs !! "dev" = Some dev_config) by reflexivity.
  split; [exact Hdev|].
  exact (proj2 (proj2 (proj2 (proj2 (proj2
           (app_default_environment None None))))) sample_configs _ Hdev).
Defined.

(** ** The two stacks of one environment *)

(** X9: when the two stacks of one environment name are declared over one
    mapping, the repository the service's image is taken from is the
    repository the pipeline creates and the build pushes to; the container
    name the build writes into the manifest is the name of the service's
    container; and the tag the service's image is first taken at is a tag
    every build pushes. *)
Theorem stacks_agree (env_configs : gmap string env_config)
    (env_name account region version : string)
    (i : infrastructure) (p : pipeline) :
  infrastructure_stack env_configs env_name region = Ok i ->
  pipeline_stack env_configs env_name account = Ok p ->
  cd_repository (i_container i) = p_repository_name p /\
  p_manifest_format p = manifest_format (cd_name (i_container i)) /\
  image_reference (build_repository_uri account region env_name)
                  (cd_tag (i_container i))
    ∈ pushed_references (build_repository_uri account region env_name)
                        version.
Proof.
  unfold infrastructure_stack, pipeline_stack.
  destruct (resolve_config env_configs env_name) as [config|e]; simpl;
    [|discriminate].
  intros [= <-] [= <-]. simpl.
  split; [reflexivity|]. split; [reflexivity|].
  unfold pushed_references. right. left.
Qed.

Lemma stacks_agree_witness :
  exists i p,
    infrastructure_stack sample_configs "prod" "us-east-1" = Ok i /\
    pipeline_stack sample_configs "prod" "123456789012" = Ok p /\
    cd_repository (i_container i) = p_repository_name p /\
    p_manifest_format p = manifest_format (cd_name (i_container i)).
Proof.
  eexists. eexists.
  split; [reflexivity|]. split; [reflexivity|].
  pose proof (stacks_agree sample_configs "prod" "123456789012" "us-east-1"
                "9f3c2d1a7b5e4c6d8f0a1b2c3d4e5f60718293a4" _ _
                eq_refl eq_refl) as (Hr & Hm & _).
  split; [exact Hr|exact Hm].
Defined.

(** ** The pipeline *)

(** X10: in the pipeline the stack declares, every artifact an action
    takes as input is the output of an action of an earlier stage; no
    artifact is produced twice; the test and the deploy action take the
    same artifact, the output of the build; and the output of the test
    action is taken by no action. *)
Theorem pipeline_dataflow (env_configs : gmap string env_config)
    (env_name account : string) (p : pipeline) :
  pipeline_stack env_configs env_name account = Ok p ->
  (forall n s a x,
     p_stages p !! n = Some s -> a ∈ stage_actions s ->
     x ∈ action_inputs a -> x ∈ produced_before (p_stages p) n) /\
  NoDup (produced_before (p_stages p) (length (p_stages p))) /\
  (forall test deploy,
     p_stages p !! 2 = Some test -> p_stages p !! 3 = Some deploy ->
     flat_map action_inputs (stage_actions test) = [BuildOutput] /\
     flat_map action_inputs (stage_actions deploy) = [BuildOutput]) /\
  TestOutput ∉ consumed (p_stages p).
Proof.
  unfold pipeline_stack.
  destruct (resolve_config env_configs env_name) as [config|e]; simpl;
    [|discriminate].
  intros [= <-]. simpl. split; [|split; [|split]].
  - intros [|[|[|[|n]]]] s a x Hs Ha Hx; simpl in Hs; try discriminate;
      injection Hs as <-; simpl in Ha;
      apply list_elem_of_singleton in Ha as ->; simpl in Hx;
      first [ by apply not_elem_of_nil in Hx
            | apply list_elem_of_singleton in Hx as ->;
              unfold produced_before; simpl; repeat constructor ].
  - unfold produced_before. simpl. repeat constructor;
      rewrite ?not_elem_of_cons; repeat split;
      first [discriminate | apply not_elem_of_nil].
  - by intros test deploy [= <-] [= <-].
  - unfold consumed. simpl. rewrite !not_elem_of_cons.
    repeat split; first [discriminate | apply not_elem_of_nil].
Qed.

Lemma pipeline_dataflow_witness :
  exists p, pipeline_stack sample_configs "prod" "123456789012" = Ok p /\
            TestOutput ∉ consumed (p_stages p).
Proof.
  eexists. split; [reflexivity|].
  apply (pipeline_dataflow sample_configs "prod" "123456789012").
  reflexivity.
Defined.

(** ** A failing command of the deploy build phase *)

(** Under the runner, the command that fails is the last one started. *)
Lemma run_phase_stops (exit_ok : command -> bool) (c : command)
    (after : list command) (before : list command) : forall st,
  exit_ok c = false ->
  started (run_phase exit_ok (before ++ c :: after)%list st).1
    `prefix_of` (before ++ [c])%list /\
  (run_phase exit_ok (before ++ c :: after)%list st).2 = Failed.
Proof.
  induction before as [|x before IH]; intros st Hc.
  - simpl app. rewrite run_phase_cons_fail by done. by split.
  - simpl app. destruct (exit_ok x) eqn:Hx.
    + rewrite run_phase_cons_ok by done. simpl.
      destruct (IH (enter x st) Hc) as [Hp Hf]. split; [|done].
      by apply prefix_cons.
    + rewrite run_phase_cons_fail by done. simpl. split; [|done].
      apply prefix_cons, prefix_nil.
Qed.

Lemma prefix_elem_of (l1 l2 : list command) (c : command) :
  l1 `prefix_of` l2 -> c ∈ l1 -> c ∈ l2.
Proof. intros [k ->] H. apply elem_of_app. by left. Qed.

Lemma rollout_steps_none (l : list command) :
  (forall c, c ∈ l -> is_rollout_step c = false) -> rollout_steps l = [].
Proof.
  unfold rollout_steps. induction l as [|c l IH]; intros H; [reflexivity|].
  simpl. rewrite (H c) by (by left). apply IH.
  intros c' Hc'. apply H. by right.
Qed.

(** X11: when the rewrite of the task definition fails, the invocation
    ends in [Failed] and performs no rollout step: nothing is registered,
    updated or awaited.  When the registration fails, the service is
    neither updated nor awaited; when the update fails, the service is not
    awaited.  So an update is only started after a rewrite and a
    registration that succeeded. *)
Theorem failed_command_stops_rollout (exit_ok : command -> bool)
    (config : env_config) :
  let log := (deploy exit_ok config).1 in
  let final := (deploy exit_ok config).2 in
  (exit_ok RewriteTaskDefinition = false ->
   final = Failed /\ rollout_steps (started log) = []) /\
  (exit_ok RegisterTaskDefinition = false ->
   final = Failed /\ (UpdateService ∉ started log) /\
   (WaitServicesStable ∉ started log)) /\
  (exit_ok UpdateService = false ->
   final = Failed /\ (WaitServicesStable ∉ started log)) /\
  (UpdateService ∈ started log ->
   exit_ok RewriteTaskDefinition = true /\
   exit_ok RegisterTaskDefinition = true).
Proof.
  intros log final. subst log final. unfold deploy.
  assert (Hrw : exit_ok RewriteTaskDefinition = false ->
            (run_phase exit_ok (deploy_build_commands config) Idle).2 = Failed /\
            forall c, c ∈ started (run_phase exit_ok
                                     (deploy_build_commands config) Idle).1 ->
                      is_rollout_step c = false).
  { intros H.
    destruct (run_phase_stops exit_ok RewriteTaskDefinition
                (skipn 7 (deploy_build_commands config))
                (firstn 6 (deploy_build_commands config)) Idle H) as [Hp Hf].
    split; [exact Hf|]. intros c Hc.
    apply (prefix_elem_of _ _ _ Hp) in Hc. simpl in Hc.
    repeat (apply elem_of_cons in Hc as [->|Hc]; [reflexivity|]).
    by apply not_elem_of_nil in Hc. }
  assert (Hrg : exit_ok RegisterTaskDefinition = false ->
            (run_phase exit_ok (deploy_build_commands config) Idle).2 = Failed /\
            (UpdateService ∉ started (run_phase exit_ok
                                        (deploy_build_commands config) Idle).1) /\
            (WaitServicesStable ∉ started (run_phase exit_ok
                                        (deploy_build_commands config) Idle).1)).
  { intros H.
    destruct (run_phase_stops exit_ok RegisterTaskDefinition
                (skipn 9 (deploy_build_commands config))
                (firstn 8 (deploy_build_commands config)) Idle H) as [Hp Hf].
    split; [exact Hf|].
    split; intros Hc; apply (prefix_elem_of _ _ _ Hp) in Hc; simpl in Hc;
      repeat (apply elem_of_cons in Hc as [Hc|Hc]; [discriminate Hc|]);
      by apply not_elem_of_nil in Hc. }
  split; [|split; [exact Hrg|split]].
  - intros H. destruct (Hrw H) as [Hf Hno]. split; [exact Hf|].
    by apply rollout_steps_none.
  - intros H.
    destruct (run_phase_stops exit_ok UpdateService
                (skipn 12 (deploy_build_commands config))
                (firstn 11 (deploy_build_commands config)) Idle H) as [Hp Hf].
    split; [exact Hf|].
    intros Hc; apply (prefix_elem_of _ _ _ Hp) in Hc; simpl in Hc;
      repeat (apply elem_of_cons in Hc as [Hc|Hc]; [discriminate Hc|]);
      by apply not_elem_of_nil in Hc.
  - intros Hu. split.
    + destruct (exit_ok RewriteTaskDefinition) eqn:E; [reflexivity|].
      destruct (Hrw eq_refl) as [_ Hno]. by specialize (Hno _ Hu).
    + destruct (exit_ok RegisterTaskDefinition) eqn:E; [reflexivity|].
      destruct (Hrg eq_refl) as (_ & Hno & _). by destruct Hno.
Qed.

Lemma failed_command_stops_rollout_witness :
  let exit_ok c :=
    match c with RewriteTaskDefinition => false | _ => true end in
  exit_ok RewriteTaskDefinition = false /\
  (deploy exit_ok dev_config).2 = Failed /\
  rollout_steps (started (deploy exit_ok dev_config).1) = [].
Proof.
  intros exit_ok. split; [reflexivity|].
  exact (proj1 (failed_command_stops_rollout exit_ok dev_config) eq_refl).
Defined.

(** ** From the build to the deployment *)

(** X12: for an account, a region, an environment name, a container name
    and a resolved source version made of letters, digits and
    [- _ . : /], the image reference the build writes into the manifest is
    the first reference it pushes, one of the names it gave the image, and
    the value the later stages read into [IMAGE_URI]; rewriting a task
    definition whose container list starts with an object then yields a
    document whose first container runs exactly that reference. *)
Theorem built_image_is_deployed (config : env_config)
    (account region env_name version : string)
    (m c : gmap string json) (rest : list json) :
  plain (container_name config) = true -> plain account = true ->
  plain region = true -> plain env_name = true -> plain version = true ->
  m !! "containerDefinitions" = Some (JArr (JObj c :: rest)) ->
  let ref := build_image_uri account region env_name version in
  exists text d,
    build_manifest config account region env_name version = Some text /\
    manifest_image_uri text = Ok (JStr ref) /\
    command_substitution (py_print ref) = ref /\
    pushed_references (build_repository_uri account region env_name) version
      !! 0 = Some ref /\
    ref ∈ tagged_references account region env_name version /\
    migrate (JObj m) ref = Ok d /\
    entry_image d = Ok (JStr ref).
Proof.
  intros Hname Hacc Hreg Henv Hver Hcd ref.
  assert (Href : plain ref = true).
  { unfold ref, build_image_uri, image_reference, build_repository_uri,
      repository_uri, pipeline_repository_name.
    rewrite !plain_append, Hacc, Hreg, Henv, (plain_image_tag _ Hver).
    reflexivity. }
  exists (manifest_text (container_name config) ref).
  eexists. split; [by apply write_manifest_plain|].
  split.
  { unfold manifest_image_uri.
    by rewrite (json_loads_manifest _ _ Hname Href). }
  split; [by apply command_substitution_print|].
  split; [reflexivity|].
  split; [right; left|].
  split; [by apply migrate_ok|].
  unfold entry_image. cbn [getitem_str mbind result_bind].
  rewrite lookup_migrated_cd.
  cbn [getitem_0 getitem_str mbind result_bind].
  by rewrite lookup_insert_eq.
Qed.

Lemma built_image_is_deployed_witness :
  exists text d,
    build_manifest dev_config "123456789012" "us-east-1" "dev"
      "9f3c2d1a7b5e4c6d8f0a1b2c3d4e5f60718293a4" = Some text /\
    manifest_image_uri text =
      Ok (JStr "123456789012.dkr.ecr.us-east-1.amazonaws.com/devops-app-dev:9f3c2d1") /\
    migrate td_A
      "123456789012.dkr.ecr.us-east-1.amazonaws.com/devops-app-dev:9f3c2d1"
      = Ok d /\
    entry_image d =
      Ok (JStr "123456789012.dkr.ecr.us-east-1.amazonaws.com/devops-app-dev:9f3c2d1").
Proof.
  pose (m := {[ "containerDefinitions" := JArr entries_A;
                "taskDefinitionArn" := JStr "arn:1";
                "revision" := JNum "1" ]} : gmap string json).
  pose (c := {[ "name" := JStr "app";
                "image" := JStr "old:1" ]} : gmap string json).
  assert (Hcd : m !! "containerDefinitions" = Some (JArr (JObj c :: [])))
    by reflexivity.
  destruct (built_image_is_deployed dev_config "123456789012" "us-east-1"
              "dev" "9f3c2d1a7b5e4c6d8f0a1b2c3d4e5f60718293a4" m c []
              eq_refl eq_refl eq_refl eq_refl eq_refl Hcd)
    as (text & d & Hw & Hu & _ & _ & _ & Hm & He).
  exists text, d. repeat split; assumption.
Defined.
